(** * goBili: media resolution pipeline

    A shallow embedding of the parts of goBili that decide how a URL becomes
    a list of episodes, how the playback API's answer becomes a list of
    stream variants, how one variant is picked, how the cookie string is
    parsed and how the [--pages] expression selects episodes.

    Conventions.
    - A Go [string] is a byte sequence: [string] of Stdlib (a list of
      [ascii]).  Multi-byte UTF-8 runes are spelled out byte by byte where
      the Go library decodes them.
    - A Go [int]/[int64] is a [Z]; the build is a 64-bit one, so an [int]
      lies in [minInt, maxInt].
    - A Go [error] is its message; [(T, error)] is [result T].
    - [map[string]string] is [gmap string string].
    - The platform's HTTP API is a record of functions from the request
      parameters to what the decoder hands to the code.
    - A slice of pointers ([[]*PageInfo], [[]*StreamInfo]) is the list of
      the values pointed to: a null entry of a JSON array, which the
      decoder turns into a nil pointer, is not modelled. *)

From Stdlib Require Import ZArith Ascii String.
From stdpp Require Import gmap strings pretty list list_numbers fin_maps.

Local Open Scope Z_scope.

(** ** Results *)

Inductive result (A : Type) : Type :=
| Ok (a : A)
| Err (msg : string).
Arguments Ok {A} a.
Arguments Err {A} msg.

Definition minInt : Z := - 2 ^ 63.
Definition maxInt : Z := 2 ^ 63 - 1.

(** ** The Go library functions the program calls *)

Module GoStr.

Definition code (c : ascii) : nat := nat_of_ascii c.

(** [fmt.Sprintf("%d", n)]. *)
Definition formatInt (n : Z) : string := pretty n.

(** [strings.Split(s, sep)] for a one-byte separator: the pieces between
    the occurrences of [sep]; always at least one piece. *)
Fixpoint Split (s : string) (sep : ascii) : list string :=
  match s with
  | EmptyString => [EmptyString]
  | String c rest =>
      if Ascii.eqb c sep then EmptyString :: Split rest sep
      else match Split rest sep with
           | piece :: pieces => String c piece :: pieces
           | [] => [String c EmptyString]
           end
  end.

(** [strings.Contains(s, sep)] for a one-byte [sep]. *)
Fixpoint Contains (s : string) (sep : ascii) : bool :=
  match s with
  | EmptyString => false
  | String c rest => Ascii.eqb c sep || Contains rest sep
  end.

(** The text before and after the first [sep], when there is one. *)
Fixpoint cut (s : string) (sep : ascii) : option (string * string) :=
  match s with
  | EmptyString => None
  | String c rest =>
      if Ascii.eqb c sep then Some (EmptyString, rest)
      else match cut rest sep with
           | Some (before, after) => Some (String c before, after)
           | None => None
           end
  end.

(** [strings.SplitN(s, sep, 2)] for a one-byte [sep]. *)
Definition SplitN2 (s : string) (sep : ascii) : list string :=
  match cut s sep with
  | Some (before, after) => [before; after]
  | None => [s]
  end.

(** White space as [unicode.IsSpace] and [fmt]'s scanner have it: the
    ASCII ones, U+0085, U+00A0, U+1680, U+2000..U+200A, U+2028, U+2029,
    U+202F, U+205F and U+3000, the latter in their UTF-8 encoding. *)
Definition space1 (b1 : nat) : bool :=
  ((9 <=? b1) && (b1 <=? 13) || (b1 =? 32))%nat.

Definition space2 (b1 b2 : nat) : bool :=
  ((b1 =? 194) && ((b2 =? 133) || (b2 =? 160)))%nat.

Definition space3 (b1 b2 b3 : nat) : bool :=
  ((b1 =? 225) && (b2 =? 154) && (b3 =? 128)
   || (b1 =? 226) && (b2 =? 128)
      && ((128 <=? b3) && (b3 <=? 138) || (b3 =? 168) || (b3 =? 169) || (b3 =? 175))
   || (b1 =? 226) && (b2 =? 129) && (b3 =? 159)
   || (b1 =? 227) && (b2 =? 128) && (b3 =? 128))%nat.

(** Drops the white-space runes at the front of [s].  With [back] the
    string is read from its last byte backwards, so the bytes of a rune
    arrive in the opposite order. *)
Fixpoint trimFront (back : bool) (s : string) : string :=
  match s with
  | EmptyString => EmptyString
  | String c1 r1 =>
      if space1 (code c1) then trimFront back r1
      else match r1 with
           | EmptyString => s
           | String c2 r2 =>
               if (if back then space2 (code c2) (code c1)
                   else space2 (code c1) (code c2))
               then trimFront back r2
               else match r2 with
                    | EmptyString => s
                    | String c3 r3 =>
                        if (if back then space3 (code c3) (code c2) (code c1)
                            else space3 (code c1) (code c2) (code c3))
                        then trimFront back r3
                        else s
                    end
           end
  end.

(** [strings.TrimSpace]. *)
Definition TrimSpace (s : string) : string :=
  String.rev (trimFront true (String.rev (trimFront false s))).

(** The scanner's [SkipSpace] under [Sscanf]: white space is skipped, a
    newline is an error ([None]). *)
Fixpoint SkipSpace (s : string) : option string :=
  match s with
  | EmptyString => Some EmptyString
  | String c1 r1 =>
      if (code c1 =? 10)%nat then None
      else if space1 (code c1) then SkipSpace r1
      else match r1 with
           | EmptyString => Some s
           | String c2 r2 =>
               if space2 (code c1) (code c2) then SkipSpace r2
               else match r2 with
                    | EmptyString => Some s
                    | String c3 r3 =>
                        if space3 (code c1) (code c2) (code c3)
                        then SkipSpace r3
                        else Some s
                    end
           end
  end.

Definition isDigit (c : ascii) : bool :=
  ((48 <=? code c) && (code c <=? 57))%nat.

(** The run of decimal digits at the front of [s], as a number, with the
    count of digits read: [scanNumber] followed by the digits' value. *)
Fixpoint scanNumber (acc : Z) (count : nat) (s : string) : Z * nat :=
  match s with
  | EmptyString => (acc, count)
  | String c rest =>
      if isDigit c
      then scanNumber (10 * acc + Z.of_nat (code c - 48)) (S count) rest
      else (acc, count)
  end.

(** [fmt.Sscanf(s, "%d", &result)] into an [int]: leading white space, an
    optional sign, at least one digit; what follows the digits is not
    looked at.  [None] stands for a non-nil error: a newline before the
    number, no input, no digit, or a value outside the 64-bit range. *)
Definition Sscanf_d (s : string) : option Z :=
  match SkipSpace s with
  | None => None
  | Some EmptyString => None
  | Some (String c rest as s1) =>
      let '(negative, digits) :=
        if Ascii.eqb c "-" then (true, rest)
        else if Ascii.eqb c "+" then (false, rest)
        else (false, s1) in
      let '(magnitude, count) := scanNumber 0 0 digits in
      let value := if negative then - magnitude else magnitude in
      match count with
      | O => None
      | S _ => if (minInt <=? value) && (value <=? maxInt)
               then Some value else None
      end
  end.

(** A string of decimal digits only. *)
Fixpoint allDigits (s : string) : bool :=
  match s with
  | EmptyString => true
  | String c rest => isDigit c && allDigits rest
  end.

(** [strings.HasPrefix]. *)
Fixpoint HasPrefix (s prefix : string) : bool :=
  match prefix, s with
  | EmptyString, _ => true
  | String _ _, EmptyString => false
  | String p prefix', String c s' => Ascii.eqb c p && HasPrefix s' prefix'
  end.

(** [strings.Contains] for a substring of any length. *)
Fixpoint ContainsString (s substr : string) : bool :=
  match s with
  | EmptyString => HasPrefix EmptyString substr
  | String _ rest => HasPrefix s substr || ContainsString rest substr
  end.

(** The bytes written [\t] and [\n] in Go. *)
Definition tab : ascii := ascii_of_nat 9.
Definition newline : ascii := ascii_of_nat 10.

(** A byte that is neither white space nor a byte of a multi-byte
    white-space rune: the printable ASCII characters but the space. *)
Definition plainByte (c : ascii) : Prop := (33 <= code c <= 126)%nat.

End GoStr.

(** ** auth: the credential store *)

Module Auth.

(** [AuthManager]; the HTTP client and the logger carry no data the
    functions below read. *)
Record AuthManager : Type := {
  cookies : gmap string string;
  userAgent : string;
  configDir : string
}.

Definition withCookies (am : AuthManager) (c : gmap string string) : AuthManager :=
  {| cookies := c; userAgent := userAgent am; configDir := configDir am |}.

Definition NewAuthManager (dir : string) : AuthManager :=
  {| cookies := ∅;
     userAgent := "Mozilla/5.0 (Macintosh; Intel Mac OS X 10_15_7) AppleWebKit/537.36 (KHTML, like Gecko) Chrome/120.0.0.0 Safari/537.36";
     configDir := dir |}.

Definition SetCookie (am : AuthManager) (name value : string) : AuthManager :=
  withCookies am (<[name := value]> (cookies am)).

(** Reading a missing key of a Go map gives the zero value. *)
Definition GetCookie (am : AuthManager) (name : string) : string :=
  default EmptyString (cookies am !! name).

Definition ClearCookies (am : AuthManager) : AuthManager :=
  withCookies am ∅.

(** One turn of the loop of [SetCookiesFromString] on the map. *)
Definition setFromSegment (m : gmap string string) (cookie : string)
  : gmap string string :=
  let cookie := GoStr.TrimSpace cookie in
  if String.eqb cookie EmptyString then m
  else match GoStr.SplitN2 cookie "=" with
       | [name; value] =>
           <[GoStr.TrimSpace name := GoStr.TrimSpace value]> m
       | _ => m
       end.

(** [SetCookiesFromString]: the manager after the call and the returned
    error ([None] is [nil]). *)
Definition SetCookiesFromString (am : AuthManager) (cookieStr : string)
  : AuthManager * option string :=
  (withCookies am (foldl setFromSegment (cookies am) (GoStr.Split cookieStr ";")),
   None).

Definition IsAuthenticated (am : AuthManager) : bool :=
  forallb (fun cookie => negb (String.eqb (GetCookie am cookie) EmptyString))
          ["SESSDATA"; "bili_jct"]%string.

(** The name a segment of the cookie string sets, when it sets one. *)
Definition segmentName (segment : string) : option string :=
  match GoStr.cut (GoStr.TrimSpace segment) "=" with
  | Some (name, _) => Some (GoStr.TrimSpace name)
  | None => None
  end.

End Auth.

(** ** parser: metadata, stream variants, quality selection *)

Module Parser.

Module PageInfo.
Record t : Type := {
  CID : Z; Part : string; Title : string; Duration : Z; Page : Z
}.
End PageInfo.

Module EpisodeInfo.
Record t : Type := {
  BVID : string; CID : Z; Title : string; Duration : Z; Index : Z
}.
End EpisodeInfo.

Module VideoInfo.
Record t : Type := {
  BVID : string; AID : Z; Title : string; Desc : string; Duration : Z;
  Type_ : string;
  Episodes : list EpisodeInfo.t;
  Pages : list PageInfo.t
}.
End VideoInfo.

Module StreamInfo.
Record t : Type := {
  Quality : Z; Format : string; VideoURL : string; AudioURL : string;
  VideoCodecs : string; AudioCodecs : string; Bandwidth : Z;
  Resolution : string
}.
End StreamInfo.

Module VideoAPIResponse.
Record t : Type := {
  BVID : string; AID : Z; Title : string; Desc : string; Duration : Z;
  Pages : list PageInfo.t
}.
End VideoAPIResponse.

(** The [dash.video] and [dash.audio] entries of the playback answer. *)
Module DashVideo.
Record t : Type := {
  ID : Z; BaseURL : string; BackupURL : list string; Bandwidth : Z;
  MimeType : string; Codecs : string; Width : Z; Height : Z;
  FrameRate : string
}.
End DashVideo.

Module DashAudio.
Record t : Type := {
  ID : Z; BaseURL : string; BackupURL : list string; Bandwidth : Z;
  MimeType : string; Codecs : string
}.
End DashAudio.

Module PlayURL.
Record t : Type := {
  Video : list DashVideo.t;
  Audio : list DashAudio.t;
  AcceptQuality : list Z;
  AcceptDescription : list string
}.
End PlayURL.

Module DURL.
Record t : Type := { URL : string; Size : Z; Length : Z }.
End DURL.

Module LegacyPlayURL.
Record t : Type := { DURL : list DURL.t; Quality : Z }.
End LegacyPlayURL.

(** What one API call comes back with: the request could not be built,
    sent, read or decoded ([Failed], with the error), or the envelope was
    decoded ([Answer]). *)
Inductive reply (A : Type) : Type :=
| Failed (err : string)
| Answer (code : Z) (message : string) (data : A).
Arguments Failed {A} err.
Arguments Answer {A} code message data.

(** The platform, as the parser sees it through its three endpoints.
    The payload of [view] is decoded in a second step, after the status
    code is looked at, and that step can fail on its own. *)
Record Platform : Type := {
  view : string -> reply (result VideoAPIResponse.t);
  playurl : string -> Z -> reply PlayURL.t;
  playurlLegacy : string -> Z -> reply LegacyPlayURL.t
}.

Definition isAlnum (c : ascii) : bool :=
  let n := GoStr.code c in
  ((48 <=? n) && (n <=? 57) || (65 <=? n) && (n <=? 90)
   || (97 <=? n) && (n <=? 122))%nat.

Fixpoint takeAlnum (s : string) : string :=
  match s with
  | EmptyString => EmptyString
  | String c rest => if isAlnum c then String c (takeAlnum rest) else EmptyString
  end.

(** [regexp.MustCompile(`BV[a-zA-Z0-9]+`).FindString]: the leftmost match,
    as long as it goes; the empty string when there is none. *)
Fixpoint FindBVID (s : string) : string :=
  match s with
  | EmptyString => EmptyString
  | String c1 tail =>
      match tail with
      | EmptyString => EmptyString
      | String c2 rest =>
          if Ascii.eqb c1 "B" && Ascii.eqb c2 "V"
             && negb (String.eqb (takeAlnum rest) EmptyString)
          then String c1 (String c2 (takeAlnum rest))
          else FindBVID tail
      end
  end.

(** "Convert to VideoInfo" in [getVideoInfo]: the type and the episodes
    are left at their zero values. *)
Definition infoOfResponse (videoData : VideoAPIResponse.t) : VideoInfo.t :=
  {| VideoInfo.BVID := VideoAPIResponse.BVID videoData;
     VideoInfo.AID := VideoAPIResponse.AID videoData;
     VideoInfo.Title := VideoAPIResponse.Title videoData;
     VideoInfo.Desc := VideoAPIResponse.Desc videoData;
     VideoInfo.Duration := VideoAPIResponse.Duration videoData;
     VideoInfo.Type_ := EmptyString;
     VideoInfo.Episodes := [];
     VideoInfo.Pages := VideoAPIResponse.Pages videoData |}.

Section WithPlatform.

Variable api : Platform.

Definition getVideoInfo (bvid : string) : result VideoInfo.t :=
  match view api bvid with
  | Failed err => Err err
  | Answer code message data =>
      if negb (code =? 0) then Err ("API error: " +:+ message)
      else match data with
           | Err err => Err err
           | Ok videoData => Ok (infoOfResponse videoData)
           end
  end.

(** The body of the loop of [parseVideoURL] over the pages. *)
Definition episodeOfPage (videoInfo : VideoInfo.t) (page : PageInfo.t)
  : EpisodeInfo.t :=
  let episodeTitle :=
    if String.eqb (PageInfo.Part page) EmptyString
    then VideoInfo.Title videoInfo +:+ " - P" +:+ GoStr.formatInt (PageInfo.Page page)
    else PageInfo.Part page in
  {| EpisodeInfo.BVID := VideoInfo.BVID videoInfo;
     EpisodeInfo.CID := PageInfo.CID page;
     EpisodeInfo.Title := episodeTitle;
     EpisodeInfo.Duration := PageInfo.Duration page;
     EpisodeInfo.Index := PageInfo.Page page |}.

Definition setType (videoInfo : VideoInfo.t) (type : string)
           (episodes : list EpisodeInfo.t) : VideoInfo.t :=
  {| VideoInfo.BVID := VideoInfo.BVID videoInfo;
     VideoInfo.AID := VideoInfo.AID videoInfo;
     VideoInfo.Title := VideoInfo.Title videoInfo;
     VideoInfo.Desc := VideoInfo.Desc videoInfo;
     VideoInfo.Duration := VideoInfo.Duration videoInfo;
     VideoInfo.Type_ := type;
     VideoInfo.Episodes := episodes;
     VideoInfo.Pages := VideoInfo.Pages videoInfo |}.

Definition parseVideoURL (rawURL : string) : result VideoInfo.t :=
  let bvid := FindBVID rawURL in
  if String.eqb bvid EmptyString
  then Err "could not extract BVID from URL"
  else match getVideoInfo bvid with
       | Err err => Err ("failed to get video info: " +:+ err)
       | Ok videoInfo =>
           if (1 <? length (VideoInfo.Pages videoInfo))%nat
           then Ok (setType videoInfo "playlist"
                      (map (episodeOfPage videoInfo) (VideoInfo.Pages videoInfo)))
           else Ok (setType videoInfo "video" (VideoInfo.Episodes videoInfo))
       end.

(** The keys of [qualityMap] below. *)
Definition knownTiers : list Z := [80; 64; 32; 16].

(** [qualityMap] of [getVideoStreamsByCID]. *)
Definition qualityMap : gmap Z Z :=
  {[ 80 := 80; 64 := 64; 32 := 32; 16 := 16 ]}.

(** The stream built from one video rendition that passed the quality
    map, paired with the first audio rendition when there is one. *)
Definition dashStream (audio : list DashAudio.t) (video : DashVideo.t)
           (quality : Z) : StreamInfo.t :=
  {| StreamInfo.Quality := quality;
     StreamInfo.Format := "mp4";
     StreamInfo.VideoURL := DashVideo.BaseURL video;
     StreamInfo.AudioURL :=
       match audio with
       | first :: _ => DashAudio.BaseURL first
       | [] => EmptyString
       end;
     StreamInfo.VideoCodecs := DashVideo.Codecs video;
     StreamInfo.AudioCodecs :=
       match audio with
       | first :: _ => DashAudio.Codecs first
       | [] => EmptyString
       end;
     StreamInfo.Bandwidth := DashVideo.Bandwidth video;
     StreamInfo.Resolution :=
       GoStr.formatInt (DashVideo.Width video) +:+ "x"
       +:+ GoStr.formatInt (DashVideo.Height video) |}.

(** A video rendition whose identifier is a key of the quality map. *)
Definition recognised (video : DashVideo.t) : Prop :=
  DashVideo.ID video ∈ knownTiers.

(** One turn of the loop over [dash.video]: [continue] on an identifier
    the quality map does not have, else one stream to append. *)
Definition processVideo (audio : list DashAudio.t) (video : DashVideo.t)
  : option StreamInfo.t :=
  match qualityMap !! DashVideo.ID video with
  | None => None
  | Some quality => Some (dashStream audio video quality)
  end.

Definition dashStreams (data : PlayURL.t) : list StreamInfo.t :=
  omap (processVideo (PlayURL.Audio data)) (PlayURL.Video data).

Definition legacyStream (quality : Z) (durl : DURL.t) : StreamInfo.t :=
  {| StreamInfo.Quality := quality;
     StreamInfo.Format := "flv";
     StreamInfo.VideoURL := DURL.URL durl;
     StreamInfo.AudioURL := EmptyString;
     StreamInfo.VideoCodecs := "avc1";
     StreamInfo.AudioCodecs := "mp4a";
     StreamInfo.Bandwidth := 0;
     StreamInfo.Resolution := "unknown" |}.

Definition getLegacyVideoStreams (bvid : string) (cid : Z)
  : result (list StreamInfo.t) :=
  match playurlLegacy api bvid cid with
  | Failed err => Err err
  | Answer code _ data =>
      if negb (code =? 0)
      then Err ("failed to get legacy video streams: " +:+ GoStr.formatInt code)
      else Ok (map (legacyStream (LegacyPlayURL.Quality data))
                   (LegacyPlayURL.DURL data))
  end.

Definition getVideoStreamsByCID (bvid : string) (cid : Z)
  : result (list StreamInfo.t) :=
  match playurl api bvid cid with
  | Failed err => Err err
  | Answer code _ data =>
      if negb (code =? 0)
      then Err ("failed to get video streams: " +:+ GoStr.formatInt code)
      else let streams := dashStreams data in
           if (length streams =? 0)%nat
           then getLegacyVideoStreams bvid cid
           else Ok streams
  end.

Definition GetVideoStreamsForPage (videoInfo : VideoInfo.t) (pageNum : Z)
  : result (list StreamInfo.t) :=
  match VideoInfo.Pages videoInfo with
  | [] => Err "no pages found for video"
  | first :: _ =>
      let cid :=
        if (0 <? pageNum) && (pageNum <=? Z.of_nat (length (VideoInfo.Pages videoInfo)))
        then match VideoInfo.Pages videoInfo !! Z.to_nat (pageNum - 1) with
             | Some page => PageInfo.CID page
             | None => PageInfo.CID first
             end
        else PageInfo.CID first in
      getVideoStreamsByCID (VideoInfo.BVID videoInfo) cid
  end.

Definition GetVideoStreams (videoInfo : VideoInfo.t)
  : result (list StreamInfo.t) :=
  GetVideoStreamsForPage videoInfo 1.

End WithPlatform.

(** One turn of the loop of [GetBestQualityStream]: the new [best]. *)
Definition better (best stream : StreamInfo.t) : StreamInfo.t :=
  if StreamInfo.Quality best <? StreamInfo.Quality stream then stream else best.

(** [GetBestQualityStream]; [None] is the nil pointer. *)
Definition GetBestQualityStream (streams : list StreamInfo.t)
  : option StreamInfo.t :=
  match streams with
  | [] => None
  | first :: rest => Some (foldl better first rest)
  end.

(** [qualityMap] of [GetStreamByQuality]. *)
Definition labelMap : gmap string Z :=
  {[ "best" := 80; "1080p" := 80; "720p" := 64; "480p" := 32; "360p" := 16 ]}%string.

(** The keys of [labelMap]. *)
Definition knownLabels : list string :=
  ["best"; "1080p"; "720p"; "480p"; "360p"]%string.

Definition GetStreamByQuality (streams : list StreamInfo.t) (quality : string)
  : option StreamInfo.t :=
  match labelMap !! quality with
  | None => GetBestQualityStream streams
  | Some targetQuality =>
      match List.find (fun stream => StreamInfo.Quality stream =? targetQuality) streams with
      | Some stream => Some stream
      | None => GetBestQualityStream streams
      end
  end.

(** The payload of the season answer, as [getPlaylistInfo] decodes it. *)
Module PlaylistData.
Record t : Type := { Title : string; Episodes : list EpisodeInfo.t }.
End PlaylistData.

Fixpoint takeDigits (s : string) : string :=
  match s with
  | EmptyString => EmptyString
  | String c rest =>
      if GoStr.isDigit c then String c (takeDigits rest) else EmptyString
  end.

(** [regexp.MustCompile(`ss(\d+)`).FindStringSubmatch(rawURL)]: the digits
    of the leftmost match, as many as follow; [None] when the slice of
    matches has fewer than two entries. *)
Fixpoint FindSeasonID (s : string) : option string :=
  match s with
  | EmptyString => None
  | String c1 tail =>
      match tail with
      | EmptyString => None
      | String c2 rest =>
          if Ascii.eqb c1 "s" && Ascii.eqb c2 "s"
             && negb (String.eqb (takeDigits rest) EmptyString)
          then Some (takeDigits rest)
          else FindSeasonID tail
      end
  end.

Section WithSeason.

Variable api : Platform.

(** The season endpoint: what the request for a season id comes back
    with, the payload being decoded in a second step as for [view]. *)
Variable season : string -> reply (result PlaylistData.t).

(** [url.Parse(rawURL)] followed by [u.Path]: the path of the URL, or the
    error of [url.Parse]. *)
Variable urlPath : string -> result string.

Definition getPlaylistInfo (seasonID : string) : result VideoInfo.t :=
  match season seasonID with
  | Failed err => Err err
  | Answer code message data =>
      if negb (code =? 0) then Err ("API error: " +:+ message)
      else match data with
           | Err err => Err err
           | Ok playlistData =>
               Ok {| VideoInfo.BVID := EmptyString;
                     VideoInfo.AID := 0;
                     VideoInfo.Title := PlaylistData.Title playlistData;
                     VideoInfo.Desc := EmptyString;
                     VideoInfo.Duration := 0;
                     VideoInfo.Type_ := "playlist";
                     VideoInfo.Episodes :=
                       map (fun ep =>
                              {| EpisodeInfo.BVID := EpisodeInfo.BVID ep;
                                 EpisodeInfo.CID := EpisodeInfo.CID ep;
                                 EpisodeInfo.Title := EpisodeInfo.Title ep;
                                 EpisodeInfo.Duration := EpisodeInfo.Duration ep;
                                 EpisodeInfo.Index := EpisodeInfo.Index ep |})
                           (PlaylistData.Episodes playlistData);
                     VideoInfo.Pages := [] |}
           end
  end.

Definition parsePlaylistURL (rawURL : string) : result VideoInfo.t :=
  match FindSeasonID rawURL with
  | None => Err "could not extract season ID from URL"
  | Some seasonID =>
      match getPlaylistInfo seasonID with
      | Err err => Err ("failed to get playlist info: " +:+ err)
      | Ok playlistInfo =>
          Ok (setType playlistInfo "playlist" (VideoInfo.Episodes playlistInfo))
      end
  end.

Definition ParseURL (rawURL : string) : result VideoInfo.t :=
  match urlPath rawURL with
  | Err err => Err ("invalid URL: " +:+ err)
  | Ok path =>
      if GoStr.ContainsString path "/video/" then parseVideoURL api rawURL
      else if GoStr.ContainsString path "/bangumi/play/" then parsePlaylistURL rawURL
      else Err "unsupported URL format"
  end.

End WithSeason.

End Parser.

(** ** cmd: the [download] command's page selection *)

Module Cmd.

Import Parser.

(** [parseInt]: [None] when [Sscanf] reports an error. *)
Definition parseInt (s : string) : option Z := GoStr.Sscanf_d s.

(** One comma-separated part of the expression, already trimmed.

    The outer [option] is [None] when the call does not come back: in
    [for i := start; i <= end; i++] with [end] the largest [int], [i]
    wraps around instead of passing [end], and the slice grows until the
    process runs out of memory. *)
Definition parsePart (part : string) : option (result (list Z)) :=
  if GoStr.Contains part "-" then
    match GoStr.Split part "-" with
    | [first; second] =>
        match parseInt first with
        | None => Some (Err ("invalid start page: " +:+ first))
        | Some start =>
            match parseInt second with
            | None => Some (Err ("invalid end page: " +:+ second))
            | Some end_ =>
                if end_ <? start
                then Some (Err ("start page (" +:+ GoStr.formatInt start
                                +:+ ") cannot be greater than end page ("
                                +:+ GoStr.formatInt end_ +:+ ")"))
                else if end_ =? maxInt then None
                else Some (Ok (seqZ start (end_ - start + 1)))
            end
        end
    | _ => Some (Err ("invalid range format: " +:+ part))
    end
  else
    match parseInt part with
    | None => Some (Err ("invalid page number: " +:+ part))
    | Some page => Some (Ok [page])
    end.

(** The loop of [parsePageRange] over the parts, [indices] being the
    slice built so far. *)
Fixpoint parseParts (indices : list Z) (parts : list string)
  : option (result (list Z)) :=
  match parts with
  | [] => Some (Ok indices)
  | part :: rest =>
      match parsePart (GoStr.TrimSpace part) with
      | Some (Ok new) => parseParts (indices ++ new) rest
      | stop => stop
      end
  end.

Definition parsePageRange (pages : string) (maxPages : Z)
  : option (result (list Z)) :=
  parseParts [] (GoStr.Split pages ",").

(** The guard of the loop of [downloadPlaylist] over the indices. *)
Definition inRange (episodes : list EpisodeInfo.t) (idx : Z) : Prop :=
  0 < idx <= Z.of_nat (length episodes).

(** One turn of the loop of [downloadPlaylist] over the indices: what it
    appends to [episodesToDownload]. *)
Definition pickEpisode (episodes : list EpisodeInfo.t) (idx : Z)
  : list EpisodeInfo.t :=
  if (0 <? idx) && (idx <=? Z.of_nat (length episodes))
  then match episodes !! Z.to_nat (idx - 1) with
       | Some episode => [episode]
       | None => []
       end
  else [].

(** The first half of [downloadPlaylist]: [episodesToDownload]. *)
Definition episodesToDownload (videoInfo : VideoInfo.t) (pages : string)
  : option (result (list EpisodeInfo.t)) :=
  if String.eqb pages "all" then Some (Ok (VideoInfo.Episodes videoInfo))
  else match parsePageRange pages (Z.of_nat (length (VideoInfo.Episodes videoInfo))) with
       | None => None
       | Some (Err err) => Some (Err ("invalid pages parameter: " +:+ err))
       | Some (Ok indices) =>
           Some (Ok (foldl (fun selected idx =>
                              selected ++ pickEpisode (VideoInfo.Episodes videoInfo) idx)
                           [] indices))
       end.

(** What happened to one episode of the download loop. *)
Inductive attempt : Type :=
| NoStreams (episode : EpisodeInfo.t) (err : string)
| Tried (episode : EpisodeInfo.t) (streams : list StreamInfo.t)
        (outcome : result unit).

Section WithDownloader.

Variable api : Platform.

(** [downloader.Downloader.DownloadVideo]: the retrieval engine, which
    this development takes as given. *)
Variable DownloadVideo : VideoInfo.t -> list StreamInfo.t -> result unit.

(** One turn of the download loop of [downloadPlaylist]. *)
Definition downloadEpisode (videoInfo : VideoInfo.t) (episode : EpisodeInfo.t)
  : attempt :=
  let episodeVideoInfo :=
    {| VideoInfo.BVID := EpisodeInfo.BVID episode;
       VideoInfo.AID := 0;
       VideoInfo.Title := EpisodeInfo.Title episode;
       VideoInfo.Desc := EmptyString;
       VideoInfo.Duration := 0;
       VideoInfo.Type_ := "video";
       VideoInfo.Episodes := [];
       VideoInfo.Pages := VideoInfo.Pages videoInfo |} in
  match GetVideoStreamsForPage api episodeVideoInfo (EpisodeInfo.Index episode) with
  | Err err => NoStreams episode err
  | Ok streams => Tried episode streams (DownloadVideo episodeVideoInfo streams)
  end.

(** [downloadPlaylist]: the returned error, and on a nil error the
    episodes the loop went through, in order, each with its outcome
    (a failed episode is reported and the loop goes on). *)
Definition downloadPlaylist (videoInfo : VideoInfo.t) (pages : string)
  : option (result (list attempt)) :=
  match episodesToDownload videoInfo pages with
  | None => None
  | Some (Err err) => Some (Err err)
  | Some (Ok episodes) => Some (Ok (map (downloadEpisode videoInfo) episodes))
  end.

End WithDownloader.

(** What a download command did when it returned a nil error: the
    attempts of the playlist loop, or the streams of the one video that
    [DownloadVideo] took. *)
Inductive report : Type :=
| PlaylistReport (attempts : list attempt)
| VideoReport (videoInfo : VideoInfo.t) (streams : list StreamInfo.t).

Section WithCommand.

Variable api : Platform.
Variable season : string -> reply (result PlaylistData.t).
Variable urlPath : string -> result string.
Variable DownloadVideo : VideoInfo.t -> list StreamInfo.t -> result unit.

Definition reportPlaylist (videoInfo : VideoInfo.t) (pages : string)
  : option (result report) :=
  match downloadPlaylist api DownloadVideo videoInfo pages with
  | None => None
  | Some (Err err) => Some (Err err)
  | Some (Ok attempts) => Some (Ok (PlaylistReport attempts))
  end.

Definition downloadSingleVideo (videoInfo : VideoInfo.t) (pages : string)
  : option (result report) :=
  if (1 <? length (VideoInfo.Pages videoInfo))%nat
  then reportPlaylist videoInfo pages
  else match GetVideoStreams api videoInfo with
       | Err err => Some (Err ("failed to get video streams: " +:+ err))
       | Ok streams =>
           match DownloadVideo videoInfo streams with
           | Err err => Some (Err err)
           | Ok _ => Some (Ok (VideoReport videoInfo streams))
           end
       end.

(** [runDownload], from the authentication check on: [mkdirError] is the
    error of [os.MkdirAll] on the output directory ([None] is nil) and
    [am] the manager after [LoadCookies], whose error is only logged. *)
Definition runDownload (mkdirError : option string) (am : Auth.AuthManager)
           (url pages : string) : option (result report) :=
  match mkdirError with
  | Some err => Some (Err ("failed to create output directory: " +:+ err))
  | None =>
      if negb (Auth.IsAuthenticated am) then Some (Err "authentication required")
      else match ParseURL api season urlPath url with
           | Err err => Some (Err ("failed to parse URL: " +:+ err))
           | Ok videoInfo =>
               if String.eqb (VideoInfo.Type_ videoInfo) "video"
               then downloadSingleVideo videoInfo pages
               else if String.eqb (VideoInfo.Type_ videoInfo) "playlist"
               then reportPlaylist videoInfo pages
               else Some (Err ("unsupported content type: "
                               +:+ VideoInfo.Type_ videoInfo))
           end
  end.

End WithCommand.

End Cmd.

(** ** Logging in: cookies from a redirect URL, from the QR code poll and
    from a cookie file *)

Module Login.

(** [parseCookiesFromURL]'s list of names. *)
Definition cookieNames : list string :=
  ["SESSDATA"; "bili_jct"; "DedeUserID"; "DedeUserID__ckMd5"; "sid"]%string.

(** [loadCookiesFromFile]'s list of names. *)
Definition essentialCookies : list string :=
  ["SESSDATA"; "bili_jct"; "DedeUserID"; "DedeUserID__ckMd5"; "sid";
   "buvid3"; "buvid4"]%string.

Definition isEssential (name : string) : bool :=
  existsb (String.eqb name) essentialCookies.

(** The answer to the QR code request. *)
Module QRData.
Record t : Type := {
  URL : string; OAuthKey : string; QRCodeKey : string; QRCodeURL : string
}.
End QRData.

Module QRCodeInfo.
Record t : Type := { URL : string; OAuthKey : string; QRCodeURL : string }.
End QRCodeInfo.

(** [QRCodeStatus], the nested [Data] flattened. *)
Module QRCodeStatus.
Record t : Type := {
  Code : Z; Message : string;
  DataURL : string; DataRefreshToken : string; DataTimestamp : Z;
  DataCode : Z; DataMessage : string
}.
End QRCodeStatus.

Section WithPassport.

(** [url.Parse(redirectURL)] followed by [u.Query()]: the error of
    [url.Parse], or [params.Get]. *)
Variable parseQuery : string -> result (string -> string).

(** The answer to the request of [GenerateQRCode]. *)
Variable generate : Parser.reply QRData.t.

(** [CheckQRCodeStatus]: what the poll number [n] for a key comes back
    with. *)
Variable poll : string -> nat -> result QRCodeStatus.t.

(** One turn of the loop of [parseCookiesFromURL] on the map. *)
Definition setFromParam (get : string -> string) (m : gmap string string)
           (name : string) : gmap string string :=
  if String.eqb (get name) EmptyString then m else <[name := get name]> m.

Definition parseCookiesFromURL (am : Auth.AuthManager) (redirectURL : string)
  : Auth.AuthManager * option string :=
  match parseQuery redirectURL with
  | Err err => (am, Some err)
  | Ok get =>
      (Auth.withCookies am (foldl (setFromParam get) (Auth.cookies am) cookieNames),
       None)
  end.

Definition GenerateQRCode : result QRCodeInfo.t :=
  match generate with
  | Parser.Failed err => Err err
  | Parser.Answer code _ data =>
      if negb (code =? 0)
      then Err ("failed to generate QR code: " +:+ GoStr.formatInt code)
      else Ok {| QRCodeInfo.URL := QRData.URL data;
                 QRCodeInfo.OAuthKey :=
                   if String.eqb (QRData.OAuthKey data) EmptyString
                   then QRData.QRCodeKey data else QRData.OAuthKey data;
                 QRCodeInfo.QRCodeURL := QRData.URL data |}
  end.

(** The poll loop of [LoginWithQRCode] from poll number [n] on, at most
    [fuel] polls long: the manager and the returned error ([None] is
    nil), or [None] when the loop is still waiting after [fuel] polls.
    On success [SaveCookies] writes the cookie file; its error is only
    logged. *)
Fixpoint pollLoop (fuel : nat) (am : Auth.AuthManager) (key : string) (n : nat)
  : option (Auth.AuthManager * option string) :=
  match fuel with
  | O => None
  | S fuel' =>
      match poll key n with
      | Err err => Some (am, Some ("failed to check QR code status: " +:+ err))
      | Ok status =>
          let code := QRCodeStatus.DataCode status in
          if code =? 0 then
            match parseCookiesFromURL am (QRCodeStatus.DataURL status) with
            | (am', Some err) => Some (am', Some ("failed to parse cookies: " +:+ err))
            | (am', None) => Some (am', None)
            end
          else if code =? 86101 then pollLoop fuel' am key (S n)
          else if code =? 86090 then pollLoop fuel' am key (S n)
          else if code =? 86038 then Some (am, Some "二维码已过期，请重新生成")
          else Some (am, Some ("登录失败: " +:+ QRCodeStatus.DataMessage status))
      end
  end.

Definition LoginWithQRCode (fuel : nat) (am : Auth.AuthManager)
  : option (Auth.AuthManager * option string) :=
  match GenerateQRCode with
  | Err err => Some (am, Some ("failed to generate QR code: " +:+ err))
  | Ok qrInfo => pollLoop fuel am (QRCodeInfo.OAuthKey qrInfo) 0
  end.

End WithPassport.

(** What [os.Stat] and [os.ReadFile] find at the path of the cookie
    file. *)
Inductive file : Type :=
| Missing
| Unreadable (err : string)
| Content (content : string).

(** One turn of the loop of [loadCookiesFromFile] over the lines: the
    manager and [cookieCount]. *)
Definition importLine (state : Auth.AuthManager * nat) (line : string)
  : Auth.AuthManager * nat :=
  let line := GoStr.TrimSpace line in
  if String.eqb line EmptyString || GoStr.HasPrefix line "#" then state
  else match GoStr.Split line GoStr.tab with
       | first :: second :: _ =>
           let name := GoStr.TrimSpace first in
           let value := GoStr.TrimSpace second in
           if isEssential name
           then (Auth.SetCookie (fst state) name value, S (snd state))
           else state
       | _ => state
       end.

(** The cookie that a line of the file sets, when it sets one: the tests
    of the loop body of [loadCookiesFromFile] on the way to its
    [SetCookie], with the name and the value it is called on. *)
Definition cookieOfLine (line : string) : option (string * string) :=
  let line := GoStr.TrimSpace line in
  if String.eqb line EmptyString || GoStr.HasPrefix line "#" then None
  else match GoStr.Split line GoStr.tab with
       | first :: second :: _ =>
           let name := GoStr.TrimSpace first in
           let value := GoStr.TrimSpace second in
           if isEssential name then Some (name, value) else None
       | _ => None
       end.

Definition loadCookiesFromFile (am : Auth.AuthManager) (found : file)
           (filePath : string) : Auth.AuthManager * option string :=
  match found with
  | Missing => (am, Some ("cookie file does not exist: " +:+ filePath))
  | Unreadable err => (am, Some ("failed to read cookie file: " +:+ err))
  | Content content =>
      let '(am', cookieCount) :=
        foldl importLine (am, O) (GoStr.Split content GoStr.newline) in
      match cookieCount with
      | O => (am', Some "no valid cookies found in file")
      | S _ => (am', None)
      end
  end.

(** What the loop of [loadCookiesFromFile] keeps true of its state, [am]
    being the manager it started from: the names outside the allow list
    read as in [am], no name of [am] is lost, nothing changed while the
    count is 0, and some name of the allow list has a value once it is
    not. *)
Definition imported (am : Auth.AuthManager) (state : Auth.AuthManager * nat) : Prop :=
  (forall name : string,
      name ∉ essentialCookies ->
      Auth.cookies (fst state) !! name = Auth.cookies am !! name)
  /\ dom (Auth.cookies am) ⊆ dom (Auth.cookies (fst state))
  /\ (snd state = O -> fst state = am)
  /\ (snd state <> O ->
      exists name : string, name ∈ essentialCookies
                            /\ is_Some (Auth.cookies (fst state) !! name)).

(** The poll answers on which the loop sleeps and polls again: "not
    scanned" and "scanned, not confirmed". *)
Definition waiting (answer : result QRCodeStatus.t) : Prop :=
  exists status, answer = Ok status
    /\ (QRCodeStatus.DataCode status = 86101 \/ QRCodeStatus.DataCode status = 86090).

End Login.

(** ** Sample answers of the platform *)

Module Samples.

Import Parser.

Definition mkPage (cid : Z) (part : string) (page : Z) : PageInfo.t :=
  {| PageInfo.CID := cid; PageInfo.Part := part; PageInfo.Title := EmptyString;
     PageInfo.Duration := 60; PageInfo.Page := page |}.

Definition mkView (pages : list PageInfo.t) : VideoAPIResponse.t :=
  {| VideoAPIResponse.BVID := "BV1qt4y1X7TW"; VideoAPIResponse.AID := 170001;
     VideoAPIResponse.Title := "Lecture"; VideoAPIResponse.Desc := EmptyString;
     VideoAPIResponse.Duration := 120; VideoAPIResponse.Pages := pages |}.

Definition mkVideo (id : Z) (url codecs : string) : DashVideo.t :=
  {| DashVideo.ID := id; DashVideo.BaseURL := url; DashVideo.BackupURL := [];
     DashVideo.Bandwidth := 800000; DashVideo.MimeType := "video/mp4";
     DashVideo.Codecs := codecs; DashVideo.Width := 1920;
     DashVideo.Height := 1080; DashVideo.FrameRate := "30" |}.

Definition mkAudio (url : string) : DashAudio.t :=
  {| DashAudio.ID := 30280; DashAudio.BaseURL := url; DashAudio.BackupURL := [];
     DashAudio.Bandwidth := 128000; DashAudio.MimeType := "audio/mp4";
     DashAudio.Codecs := "mp4a.40.2" |}.

Definition mkStream (quality : Z) (url : string) : StreamInfo.t :=
  {| StreamInfo.Quality := quality; StreamInfo.Format := "flv";
     StreamInfo.VideoURL := url; StreamInfo.AudioURL := EmptyString;
     StreamInfo.VideoCodecs := "avc1"; StreamInfo.AudioCodecs := "mp4a";
     StreamInfo.Bandwidth := 0; StreamInfo.Resolution := "unknown" |}.

Definition mkEpisode (cid : Z) (title : string) (index : Z) : EpisodeInfo.t :=
  {| EpisodeInfo.BVID := "BV1qt4y1X7TW"; EpisodeInfo.CID := cid;
     EpisodeInfo.Title := title; EpisodeInfo.Duration := 60;
     EpisodeInfo.Index := index |}.

Definition videoURL : string := "https://www.bilibili.com/video/BV1qt4y1X7TW".

(** No endpoint can be reached. *)
Definition offline : Platform :=
  {| view := fun _ => Failed "dial tcp: no route to host";
     playurl := fun _ _ => Failed "dial tcp: no route to host";
     playurlLegacy := fun _ _ => Failed "dial tcp: no route to host" |}.

(** A two-part video, the second part without a title of its own. *)
Definition twoParts : VideoAPIResponse.t :=
  mkView [mkPage 101 "Intro" 1; mkPage 102 EmptyString 2].

Definition serving (data : VideoAPIResponse.t) : Platform :=
  {| view := fun _ => Answer 0 "0" (Ok data);
     playurl := playurl offline;
     playurlLegacy := playurlLegacy offline |}.

(** The 1080p rendition in two codecs, then a 720p one and one the
    quality map does not know. *)
Definition twoCodecs : PlayURL.t :=
  {| PlayURL.Video := [mkVideo 80 "v80-avc" "avc1.640032";
                       mkVideo 80 "v80-hev" "hev1.1.6.L120.90";
                       mkVideo 120 "v120" "hev1.1.6.L153.90";
                       mkVideo 64 "v64" "avc1.640028"];
     PlayURL.Audio := [mkAudio "a1"; mkAudio "a2"];
     PlayURL.AcceptQuality := [120; 80; 64];
     PlayURL.AcceptDescription := [] |}.

Definition noDash : PlayURL.t :=
  {| PlayURL.Video := []; PlayURL.Audio := [];
     PlayURL.AcceptQuality := []; PlayURL.AcceptDescription := [] |}.

(** A legacy answer at quality 74. *)
Definition legacy74 : LegacyPlayURL.t :=
  {| LegacyPlayURL.DURL := [{| DURL.URL := "d1"; DURL.Size := 1000; DURL.Length := 60 |}];
     LegacyPlayURL.Quality := 74 |}.

Definition playing (dash : PlayURL.t) (legacy : LegacyPlayURL.t) : Platform :=
  {| view := view offline;
     playurl := fun _ _ => Answer 0 "0" dash;
     playurlLegacy := fun _ _ => Answer 0 "0" legacy |}.

Definition threeEpisodes : VideoInfo.t :=
  setType (infoOfResponse (mkView []))
          "playlist" [mkEpisode 101 "one" 1; mkEpisode 102 "two" 2; mkEpisode 103 "three" 3].

End Samples.

(** ** Sample seasons, passports and cookie files *)

Module MoreSamples.

Import Parser.

Definition seasonURL : string := "https://www.bilibili.com/bangumi/play/ss33073".

Definition seasonData : PlaylistData.t :=
  {| PlaylistData.Title := "Season";
     PlaylistData.Episodes :=
       [Samples.mkEpisode 201 "ep one" 1; Samples.mkEpisode 202 "ep two" 2] |}.

Definition seasons : string -> reply (result PlaylistData.t) :=
  fun _ => Answer 0 "success" (Ok seasonData).

(** [url.Parse] on the sample URLs. *)
Definition pathOf (rawURL : string) : result string :=
  if String.eqb rawURL seasonURL then Ok "/bangumi/play/ss33073"%string
  else Ok "/video/BV1qt4y1X7TW"%string.

Definition downloader : VideoInfo.t -> list StreamInfo.t -> result unit :=
  fun _ _ => Ok tt.

(** A video of one page. *)
Definition onePart : VideoAPIResponse.t :=
  Samples.mkView [Samples.mkPage 101 EmptyString 1].

Definition loggedIn : Auth.AuthManager :=
  Auth.SetCookie (Auth.SetCookie (Auth.NewAuthManager "cfg") "SESSDATA" "abc")
                 "bili_jct" "def".

(** The query of a redirect URL with the two session cookies. *)
Definition redirectQuery : string -> result (string -> string) :=
  fun _ => Ok (fun name =>
                 if String.eqb name "SESSDATA" then "abc"%string
                 else if String.eqb name "bili_jct" then "def"%string
                 else EmptyString).

Definition statusWith (code : Z) : Login.QRCodeStatus.t :=
  {| Login.QRCodeStatus.Code := 0; Login.QRCodeStatus.Message := "0";
     Login.QRCodeStatus.DataURL := "https://passport.biligame.com/crossDomain?SESSDATA=abc&bili_jct=def";
     Login.QRCodeStatus.DataRefreshToken := EmptyString;
     Login.QRCodeStatus.DataTimestamp := 0;
     Login.QRCodeStatus.DataCode := code;
     Login.QRCodeStatus.DataMessage := EmptyString |}.

(** Two polls find the code not scanned, the third finds it confirmed. *)
Definition scannedAtThird : string -> nat -> result Login.QRCodeStatus.t :=
  fun _ n => Ok (statusWith (if (n <? 2)%nat then 86101 else 0)).

(** A cookie file with a comment, a line of the allow list and a line
    outside it. *)
Definition cookieFile : string :=
  "# exported cookies" +:+ String GoStr.newline
    ("SESSDATA" +:+ String GoStr.tab
       ("abc" +:+ String GoStr.newline
          ("theme" +:+ String GoStr.tab ("dark" +:+ String GoStr.newline EmptyString)))).

End MoreSamples.

Import Parser.

(** * Properties *)

(** ** The credential string *)

Section Credentials.

(** What one segment of the string does to the map. *)
Lemma setFromSegment_cut (m : gmap string string) (segment : string) :
  Auth.setFromSegment m segment =
  match GoStr.cut (GoStr.TrimSpace segment) "=" with
  | Some (name, value) => <[GoStr.TrimSpace name := GoStr.TrimSpace value]> m
  | None => m
  end.
Proof.
  unfold Auth.setFromSegment, GoStr.SplitN2.
  destruct (String.eqb_spec (GoStr.TrimSpace segment) "") as [-> | Hne];
    [reflexivity|].
  destruct (GoStr.cut (GoStr.TrimSpace segment) "=") as [[name value]|];
    reflexivity.
Qed.

(** C7.  On a fresh manager, [SetCookiesFromString "a=1; b=2 ; c"] leaves
    exactly the cookies a=1 and b=2 and returns a nil error.  In general
    the error is nil for every manager and every string, the segments
    between the semicolons are taken in turn, a segment with an equals
    sign sets the trimmed name to the trimmed value, and a segment
    without one changes nothing. *)
Theorem cookie_string_example :
  (forall dir,
      Auth.SetCookiesFromString (Auth.NewAuthManager dir) "a=1; b=2 ; c"
      = (Auth.withCookies (Auth.NewAuthManager dir)
           {[ "a"%string := "1"%string; "b"%string := "2"%string ]}, None))
  /\ (forall am cookieStr, snd (Auth.SetCookiesFromString am cookieStr) = None)
  /\ (forall am cookieStr,
        Auth.cookies (fst (Auth.SetCookiesFromString am cookieStr))
        = foldl Auth.setFromSegment (Auth.cookies am) (GoStr.Split cookieStr ";"))
  /\ (forall (m : gmap string string) segment,
        Auth.setFromSegment m segment =
        match GoStr.cut (GoStr.TrimSpace segment) "=" with
        | Some (name, value) => <[GoStr.TrimSpace name := GoStr.TrimSpace value]> m
        | None => m
        end).
Proof.
  split; [|split; [|split]].
  - intros dir. vm_compute. reflexivity.
  - reflexivity.
  - reflexivity.
  - exact setFromSegment_cut.
Qed.

End Credentials.

(** ** Picking a stream *)

Section Picking.

Implicit Types (streams rest : list StreamInfo.t) (first best stream s : StreamInfo.t).

Lemma GetBestQualityStream_cons first rest :
  GetBestQualityStream (first :: rest) = Some (foldl better first rest).
Proof. reflexivity. Qed.

Lemma better_cases best stream :
  better best stream = best /\ StreamInfo.Quality stream <= StreamInfo.Quality best
  \/ better best stream = stream /\ StreamInfo.Quality best < StreamInfo.Quality stream.
Proof.
  unfold better.
  destruct (Z.ltb_spec (StreamInfo.Quality best) (StreamInfo.Quality stream));
    [right | left]; split; (reflexivity || lia).
Qed.

Lemma foldl_better_elem rest : forall best,
  foldl better best rest ∈ best :: rest.
Proof.
  induction rest as [|x rest IH]; intros best; simpl.
  - left.
  - pose proof (IH (better best x)) as Hin.
    destruct (better_cases best x) as [[E _] | [E _]]; rewrite E in *.
    + apply elem_of_cons in Hin as [-> | Hin]; [left | right; right; exact Hin].
    + right. exact Hin.
Qed.

Lemma foldl_better_ge_start rest : forall best,
  StreamInfo.Quality best <= StreamInfo.Quality (foldl better best rest).
Proof.
  induction rest as [|x rest IH]; intros best; simpl; [lia|].
  pose proof (IH (better best x)) as Hge.
  destruct (better_cases best x) as [[E ?] | [E ?]]; rewrite E in *; lia.
Qed.

Lemma foldl_better_max rest : forall best s,
  s ∈ best :: rest ->
  StreamInfo.Quality s <= StreamInfo.Quality (foldl better best rest).
Proof.
  induction rest as [|x rest IH]; intros best s Hin; simpl.
  - apply list_elem_of_singleton in Hin as ->. lia.
  - pose proof (foldl_better_ge_start rest (better best x)) as Hge.
    apply elem_of_cons in Hin as [-> | Hin];
      [|apply elem_of_cons in Hin as [-> | Hin]].
    + destruct (better_cases best x) as [[E ?] | [E ?]]; rewrite E in *; lia.
    + destruct (better_cases best x) as [[E ?] | [E ?]]; rewrite E in *; lia.
    + apply IH. right. exact Hin.
Qed.

Lemma foldl_better_keep rest : forall best,
  Forall (fun s => StreamInfo.Quality s <= StreamInfo.Quality best) rest ->
  foldl better best rest = best.
Proof.
  induction rest as [|x rest IH]; intros best Hall; simpl; [reflexivity|].
  apply Forall_cons in Hall as [Hx Hall].
  destruct (better_cases best x) as [[E ?] | [E ?]]; [|lia].
  rewrite E. apply IH, Hall.
Qed.

Lemma foldl_better_first_top (top : Z) rest : forall best s,
  StreamInfo.Quality best < top ->
  Forall (fun x => StreamInfo.Quality x <= top) rest ->
  List.find (fun x => StreamInfo.Quality x =? top) rest = Some s ->
  foldl better best rest = s.
Proof.
  induction rest as [|x rest IH]; intros best s Hlt Hall Hfind; simpl in *;
    [discriminate|].
  apply Forall_cons in Hall as [Hx Hall].
  destruct (Z.eqb_spec (StreamInfo.Quality x) top) as [Heq | Hne].
  - injection Hfind as <-.
    destruct (better_cases best x) as [[E ?] | [E ?]]; [lia|].
    rewrite E. apply foldl_better_keep. rewrite Heq. exact Hall.
  - apply IH; [|exact Hall|exact Hfind].
    destruct (better_cases best x) as [[E ?] | [E ?]]; rewrite E; lia.
Qed.

Lemma foldl_better_position rest : forall best,
  (foldl better best rest = best
   /\ Forall (fun x => StreamInfo.Quality x <= StreamInfo.Quality best) rest)
  \/ exists i : nat,
      rest !! i = Some (foldl better best rest)
      /\ StreamInfo.Quality best < StreamInfo.Quality (foldl better best rest)
      /\ forall (j : nat) x, (j < i)%nat -> rest !! j = Some x ->
           StreamInfo.Quality x < StreamInfo.Quality (foldl better best rest).
Proof.
  induction rest as [|x rest IH]; intros best; simpl.
  - left. split; [reflexivity | constructor].
  - destruct (better_cases best x) as [[E Hle] | [E Hlt]]; rewrite E.
    + destruct (IH best) as [[Hkeep Hall] | (i & Hi & Hgt & Hbefore)].
      * left. split; [exact Hkeep | constructor; assumption].
      * right. exists (S i). split; [exact Hi|]. split; [exact Hgt|].
        intros [|j] y Hj Hy; simpl in Hy.
        -- injection Hy as <-. lia.
        -- apply (Hbefore j); [lia | exact Hy].
    + destruct (IH x) as [[Hkeep Hall] | (i & Hi & Hgt & Hbefore)].
      * right. exists 0%nat. rewrite Hkeep. split; [reflexivity|].
        split; [exact Hlt|]. intros j y Hj. lia.
      * right. exists (S i). split; [exact Hi|]. split; [lia|].
        intros [|j] y Hj Hy; simpl in Hy.
        -- injection Hy as <-. exact Hgt.
        -- apply (Hbefore j); [lia | exact Hy].
Qed.

Lemma GetBestQualityStream_nonempty streams :
  streams <> [] ->
  exists s, GetBestQualityStream streams = Some s /\ s ∈ streams
            /\ Forall (fun x => StreamInfo.Quality x <= StreamInfo.Quality s) streams.
Proof.
  destruct streams as [|first rest]; [congruence|]. intros _.
  exists (foldl better first rest). split; [reflexivity|]. split.
  - apply foldl_better_elem.
  - apply Forall_forall. intros x Hx. apply foldl_better_max. exact Hx.
Qed.

Lemma best_when_top_bounded streams (top : Z) s :
  Forall (fun x => StreamInfo.Quality x <= top) streams ->
  List.find (fun x => StreamInfo.Quality x =? top) streams = Some s ->
  GetBestQualityStream streams = Some s.
Proof.
  destruct streams as [|first rest]; [discriminate|].
  intros Hall Hfind. rewrite GetBestQualityStream_cons. f_equal.
  apply Forall_cons in Hall as [Hfirst Hall]. simpl in Hfind.
  destruct (Z.eqb_spec (StreamInfo.Quality first) top) as [Heq | Hne].
  - injection Hfind as <-. apply foldl_better_keep. rewrite Heq. exact Hall.
  - apply (foldl_better_first_top top); [lia | exact Hall | exact Hfind].
Qed.

Lemma labelMap_unknown (label : string) :
  label ∉ knownLabels <-> labelMap !! label = None.
Proof.
  unfold labelMap, knownLabels.
  rewrite !lookup_insert_None, lookup_singleton_None, !not_elem_of_cons.
  split; [intros (? & ? & ? & ? & ? & _) | intros ((((? & ?) & ?) & ?) & ?)];
    repeat split; try congruence; apply not_elem_of_nil.
Qed.

Lemma labelMap_best : labelMap !! "best"%string = Some 80.
Proof. reflexivity. Qed.

Lemma best_label_without_top streams :
  Forall (fun s => StreamInfo.Quality s <> 80) streams ->
  GetStreamByQuality streams "best" = GetBestQualityStream streams.
Proof.
  intros Hno. unfold GetStreamByQuality. rewrite labelMap_best.
  destruct (List.find _ streams) as [s|] eqn:Hfind; [|reflexivity].
  pose proof (find_some _ _ Hfind) as [Hin Hq]. apply Z.eqb_eq in Hq.
  rewrite Forall_forall in Hno. apply list_elem_of_In in Hin.
  destruct (Hno s Hin Hq).
Qed.

Lemma best_label_bounded streams :
  Forall (fun s => StreamInfo.Quality s <= 80) streams ->
  GetStreamByQuality streams "best" = GetBestQualityStream streams.
Proof.
  intros Hle. unfold GetStreamByQuality. rewrite labelMap_best.
  destruct (List.find _ streams) as [s|] eqn:Hfind; [|reflexivity].
  symmetry. apply (best_when_top_bounded streams 80); assumption.
Qed.

(** Selecting by the label "best" looks for tier 80: it gives the
    best-quality pick exactly when the list has no variant of tier 80 or
    has no variant above tier 80. *)
Lemma best_label_iff streams :
  GetStreamByQuality streams "best" = GetBestQualityStream streams
  <-> Forall (fun s => StreamInfo.Quality s <> 80) streams
      \/ Forall (fun s => StreamInfo.Quality s <= 80) streams.
Proof.
  split; [|intros [Hno | Hle];
           [apply best_label_without_top | apply best_label_bounded]; assumption].
  unfold GetStreamByQuality. rewrite labelMap_best.
  destruct (List.find _ streams) as [s|] eqn:Hfind.
  - pose proof (find_some _ _ Hfind) as [Hin Hq]. apply Z.eqb_eq in Hq.
    intros Heq. right. apply Forall_forall. intros x Hx.
    destruct streams as [|first rest]; [inversion Hx|].
    rewrite GetBestQualityStream_cons in Heq. injection Heq as Heq.
    rewrite <- Hq, Heq. apply foldl_better_max. exact Hx.
  - intros _. left. apply Forall_forall. intros x Hx Hq.
    apply list_elem_of_In in Hx.
    pose proof (find_none _ _ Hfind x Hx) as Hne. simpl in Hne.
    apply Z.eqb_neq in Hne. contradiction.
Qed.

(** C5.  On a non-empty list, selection by label returns a variant of the
    list, whatever the label; a label outside the five known ones gives
    the best-quality pick, and so does a known label whose tier no
    variant of the list has. *)
Theorem pick_by_label_total streams (label : string) (Hne : streams <> []) :
  (exists s, GetStreamByQuality streams label = Some s /\ s ∈ streams)
  /\ (label ∉ knownLabels ->
      GetStreamByQuality streams label = GetBestQualityStream streams)
  /\ (forall tier, labelMap !! label = Some tier ->
      Forall (fun s => StreamInfo.Quality s <> tier) streams ->
      GetStreamByQuality streams label = GetBestQualityStream streams).
Proof.
  destruct (GetBestQualityStream_nonempty streams Hne) as (b & Hb & Hbin & _).
  repeat split.
  - unfold GetStreamByQuality.
    destruct (labelMap !! label) as [tier|]; [|eauto].
    destruct (List.find _ streams) as [s|] eqn:Hfind; [|eauto].
    exists s. split; [reflexivity|].
    apply list_elem_of_In. eapply find_some, Hfind.
  - intros Hunknown. apply labelMap_unknown in Hunknown.
    unfold GetStreamByQuality. rewrite Hunknown. reflexivity.
  - intros tier Htier Habsent. unfold GetStreamByQuality. rewrite Htier.
    destruct (List.find _ streams) as [s|] eqn:Hfind; [|reflexivity].
    pose proof (find_some _ _ Hfind) as [Hin Hq]. apply Z.eqb_eq in Hq.
    rewrite Forall_forall in Habsent. apply list_elem_of_In in Hin.
    destruct (Habsent s Hin Hq).
Qed.

Lemma pick_by_label_total_witness :
  [Samples.mkStream 64 "u1"; Samples.mkStream 32 "u2"] <> []
  /\ (exists s,
        GetStreamByQuality [Samples.mkStream 64 "u1"; Samples.mkStream 32 "u2"] "4k" = Some s
        /\ s ∈ [Samples.mkStream 64 "u1"; Samples.mkStream 32 "u2"]).
Proof.
  split; [discriminate|].
  apply (pick_by_label_total [Samples.mkStream 64 "u1"; Samples.mkStream 32 "u2"] "4k").
  discriminate.
Defined.

End Picking.

(** ** Resolving the stream variants *)

Section Resolution.

Variable api : Platform.

Lemma qualityMap_lookup_Some (id quality : Z) :
  qualityMap !! id = Some quality <-> quality = id /\ id ∈ knownTiers.
Proof.
  unfold qualityMap, knownTiers.
  rewrite !lookup_insert_Some, lookup_singleton_Some, !elem_of_cons.
  split; [|intros [-> Hin]].
  - intros H.
    repeat (destruct H as [[<- <-] | [_ H]]; [split; [reflexivity | tauto]|]).
    destruct H as [<- <-]. split; [reflexivity | tauto].
  - assert (Hnil : id ∉ @nil Z) by apply not_elem_of_nil.
    destruct (decide (80 = id)) as [<-|]; [tauto|].
    destruct (decide (64 = id)) as [<-|]; [tauto|].
    destruct (decide (32 = id)) as [<-|]; [tauto|].
    destruct (decide (16 = id)) as [<-|]; [tauto|].
    exfalso. intuition congruence.
Qed.

Lemma qualityMap_lookup_None (id : Z) :
  qualityMap !! id = None <-> id ∉ knownTiers.
Proof.
  split.
  - intros Hnone Hin.
    assert (qualityMap !! id = Some id) as Hsome
      by (apply qualityMap_lookup_Some; auto).
    congruence.
  - intros Hout. destruct (qualityMap !! id) as [q|] eqn:Hq; [|reflexivity].
    apply qualityMap_lookup_Some in Hq as [_ Hin]. contradiction.
Qed.

Lemma processVideo_recognised audio video :
  DashVideo.ID video ∈ knownTiers ->
  processVideo audio video = Some (dashStream audio video (DashVideo.ID video)).
Proof.
  intros Hin. unfold processVideo.
  destruct (qualityMap !! DashVideo.ID video) as [q|] eqn:Hq.
  - apply qualityMap_lookup_Some in Hq as [-> _]. reflexivity.
  - apply qualityMap_lookup_None in Hq. contradiction.
Qed.

Lemma processVideo_dropped audio video :
  DashVideo.ID video ∉ knownTiers -> processVideo audio video = None.
Proof.
  intros Hout. unfold processVideo.
  apply qualityMap_lookup_None in Hout. rewrite Hout. reflexivity.
Qed.

Lemma dashStreams_filter data :
  dashStreams data
  = map (fun video => dashStream (PlayURL.Audio data) video (DashVideo.ID video))
        (filter recognised (PlayURL.Video data)).
Proof.
  unfold dashStreams.
  induction (PlayURL.Video data) as [|video videos IH]; [reflexivity|].
  rewrite filter_cons. simpl. unfold recognised at 1.
  destruct (decide (DashVideo.ID video ∈ knownTiers)) as [Hin | Hout].
  - rewrite (processVideo_recognised _ _ Hin). simpl. f_equal. exact IH.
  - rewrite (processVideo_dropped _ _ Hout). exact IH.
Qed.

Lemma dashStreams_tiers data :
  Forall (fun s => StreamInfo.Quality s ∈ knownTiers) (dashStreams data).
Proof.
  rewrite dashStreams_filter. apply Forall_forall. intros s Hs.
  apply list_elem_of_fmap in Hs as (video & -> & Hvideo).
  apply list_elem_of_filter in Hvideo as [Hrec _]. exact Hrec.
Qed.

Lemma getVideoStreamsByCID_dash bvid cid message data :
  playurl api bvid cid = Answer 0 message data ->
  dashStreams data <> [] ->
  getVideoStreamsByCID api bvid cid = Ok (dashStreams data).
Proof.
  intros Hreply Hne. unfold getVideoStreamsByCID. rewrite Hreply. simpl.
  destruct (dashStreams data); [congruence | reflexivity].
Qed.

Lemma getVideoStreamsByCID_inv bvid cid streams :
  getVideoStreamsByCID api bvid cid = Ok streams ->
  (exists message data,
      playurl api bvid cid = Answer 0 message data
      /\ streams = dashStreams data /\ streams <> [])
  \/ (exists message data message' legacy,
      playurl api bvid cid = Answer 0 message data
      /\ dashStreams data = []
      /\ playurlLegacy api bvid cid = Answer 0 message' legacy
      /\ streams = map (legacyStream (LegacyPlayURL.Quality legacy))
                       (LegacyPlayURL.DURL legacy)).
Proof.
  unfold getVideoStreamsByCID, getLegacyVideoStreams.
  destruct (playurl api bvid cid) as [err | code message data]; [discriminate|].
  destruct (Z.eqb_spec code 0) as [-> | Hcode]; simpl; [|discriminate].
  destruct (dashStreams data) as [|s ss] eqn:Hdash; simpl.
  - destruct (playurlLegacy api bvid cid) as [err | code' message' legacy];
      [discriminate|].
    destruct (Z.eqb_spec code' 0) as [-> | Hcode']; simpl; [|discriminate].
    intros [= <-]. right. exists message, data, message', legacy. auto.
  - intros [= <-]. left. exists message, data. rewrite Hdash. auto.
Qed.

Lemma dashStreams_nonempty data :
  Exists recognised (PlayURL.Video data) -> dashStreams data <> [].
Proof.
  rewrite dashStreams_filter. intros Hsome Hnil.
  apply Exists_exists in Hsome as (video & Hin & Hrec).
  assert (Hkept : video ∈ filter recognised (PlayURL.Video data))
    by (apply list_elem_of_filter; auto).
  apply fmap_nil_inv in Hnil. rewrite Hnil in Hkept. inversion Hkept.
Qed.

(** C1, as amended.  When the playback answer has status 0 and at least
    one video rendition with a recognised identifier, the call returns
    one variant for each such rendition, in the order of the answer: two
    renditions of one tier give two variants of that tier. *)
Theorem dash_renditions_all_kept bvid cid message data
  (Hreply : playurl api bvid cid = Answer 0 message data)
  (Hsome : Exists recognised (PlayURL.Video data)) :
  let kept := filter recognised (PlayURL.Video data) in
  exists streams,
    getVideoStreamsByCID api bvid cid = Ok streams
    /\ streams = map (fun video => dashStream (PlayURL.Audio data) video (DashVideo.ID video)) kept
    /\ length streams = length kept
    /\ StreamInfo.Quality <$> streams = DashVideo.ID <$> kept
    /\ StreamInfo.VideoURL <$> streams = DashVideo.BaseURL <$> kept.
Proof.
  intros kept. eexists. split; [|split; [reflexivity|]].
  - rewrite <- dashStreams_filter.
    apply (getVideoStreamsByCID_dash _ _ message), dashStreams_nonempty;
      assumption.
  - split; [apply length_map|].
    split; change (map ?f ?l) with (f <$> l);
      rewrite <- list_fmap_compose; reflexivity.
Qed.

(** C2, as amended.  A returned list is either the one built from the
    modern answer, whose tiers are all among 80, 64, 32 and 16 because
    the renditions with another identifier were left out, or the one
    built from the legacy answer, whose variants all carry the quality
    field of that answer, whatever it is. *)
Theorem resolved_tiers bvid cid streams
  (Hok : getVideoStreamsByCID api bvid cid = Ok streams) :
  (exists message data,
      playurl api bvid cid = Answer 0 message data
      /\ streams = map (fun video => dashStream (PlayURL.Audio data) video (DashVideo.ID video))
                       (filter recognised (PlayURL.Video data))
      /\ Forall (fun s => StreamInfo.Quality s ∈ knownTiers) streams)
  \/ (exists message legacy,
      playurlLegacy api bvid cid = Answer 0 message legacy
      /\ getLegacyVideoStreams api bvid cid = Ok streams
      /\ length streams = length (LegacyPlayURL.DURL legacy)
      /\ Forall (fun s => StreamInfo.Quality s = LegacyPlayURL.Quality legacy) streams).
Proof.
  apply getVideoStreamsByCID_inv in Hok
    as [(message & data & Hreply & -> & _)
       | (message & data & message' & legacy & _ & _ & Hlegacy & ->)].
  - left. exists message, data. split; [exact Hreply|].
    split; [apply dashStreams_filter | apply dashStreams_tiers].
  - right. exists message', legacy. split; [exact Hlegacy|].
    split; [unfold getLegacyVideoStreams; rewrite Hlegacy; reflexivity|].
    split; [apply length_map|].
    apply Forall_forall. intros s Hs.
    apply list_elem_of_fmap in Hs as (durl & -> & _). reflexivity.
Qed.

Lemma page_lookup_never_fails (videoInfo : VideoInfo.t) (pageNum : Z) :
  VideoInfo.Pages videoInfo <> [] ->
  exists page, page ∈ VideoInfo.Pages videoInfo
    /\ GetVideoStreamsForPage api videoInfo pageNum
       = getVideoStreamsByCID api (VideoInfo.BVID videoInfo) (PageInfo.CID page).
Proof.
  unfold GetVideoStreamsForPage.
  destruct (VideoInfo.Pages videoInfo) as [|first rest] eqn:Hpages; [congruence|].
  intros _.
  destruct ((0 <? pageNum) && (pageNum <=? Z.of_nat (length (first :: rest))));
    [|exists first; split; [left | reflexivity]].
  destruct ((first :: rest) !! Z.to_nat (pageNum - 1)) as [page|] eqn:Hpage.
  - exists page. split; [|reflexivity]. eapply list_elem_of_lookup_2, Hpage.
  - exists first. split; [left | reflexivity].
Qed.

(** C9, as amended.  A page number below 1 or above the number of pages
    is not refused: on a video with pages the call is the stream
    resolution of the first page's content id, with that resolution's
    result, variants or error; on a video without pages it is the error
    "no pages found for video".  With pages, whatever the page number, the
    call is the stream resolution of one of the pages, so the page lookup
    itself gives an error only for an empty page list. *)
Theorem page_out_of_range (videoInfo : VideoInfo.t) (pageNum : Z)
  (Hout : pageNum < 1 \/ Z.of_nat (length (VideoInfo.Pages videoInfo)) < pageNum) :
  match VideoInfo.Pages videoInfo with
  | [] => GetVideoStreamsForPage api videoInfo pageNum = Err "no pages found for video"
  | first :: _ =>
      GetVideoStreamsForPage api videoInfo pageNum
      = getVideoStreamsByCID api (VideoInfo.BVID videoInfo) (PageInfo.CID first)
      /\ forall anyPage, exists page,
          page ∈ VideoInfo.Pages videoInfo
          /\ GetVideoStreamsForPage api videoInfo anyPage
             = getVideoStreamsByCID api (VideoInfo.BVID videoInfo) (PageInfo.CID page)
  end.
Proof.
  destruct (VideoInfo.Pages videoInfo) as [|first rest] eqn:Hpages.
  - unfold GetVideoStreamsForPage. rewrite Hpages. reflexivity.
  - split.
    + unfold GetVideoStreamsForPage. rewrite Hpages.
      destruct (Z.ltb_spec 0 pageNum); [|reflexivity].
      destruct (Z.leb_spec pageNum (Z.of_nat (length (first :: rest))));
        [lia | reflexivity].
    + intros anyPage. rewrite <- Hpages.
      apply page_lookup_never_fails. rewrite Hpages. discriminate.
Qed.

End Resolution.

(** On every list that stream resolution returns, "best" is the
    best-quality pick: the modern list has no tier above 80 and the legacy
    list has one tier throughout. *)
Lemma best_label_on_resolved api bvid cid streams :
  getVideoStreamsByCID api bvid cid = Ok streams ->
  GetStreamByQuality streams "best" = GetBestQualityStream streams.
Proof.
  intros Hok.
  apply getVideoStreamsByCID_inv in Hok
    as [(message & data & _ & -> & _)
       | (message & data & message' & legacy & _ & _ & _ & ->)].
  - apply best_label_bounded.
    eapply Forall_impl; [apply dashStreams_tiers|].
    intros s Hs. simpl in Hs. unfold knownTiers in Hs.
    repeat (apply elem_of_cons in Hs as [-> | Hs]; [lia|]). inversion Hs.
  - destruct (Z.le_gt_cases (LegacyPlayURL.Quality legacy) 80) as [Hle | Hgt].
    + apply best_label_bounded, Forall_forall. intros s Hs.
      apply list_elem_of_fmap in Hs as (durl & -> & _). exact Hle.
    + apply best_label_without_top, Forall_forall. intros s Hs.
      apply list_elem_of_fmap in Hs as (durl & -> & _). simpl. lia.
Qed.

(** C4.  A list of stream variants has its tiers in the closed vocabulary
    80, 64, 32, 16, or is a list that stream resolution returned.  On
    every such non-empty list, selecting by the label "best" returns the
    same variant as the best-quality pick, and that variant is the first
    one of maximal tier: no variant has a higher tier and every variant
    before it has a lower one. *)
Theorem best_label_is_best_pick (streams : list StreamInfo.t)
  (Hne : streams <> [])
  (Hvariants : Forall (fun s => StreamInfo.Quality s ∈ knownTiers) streams
               \/ exists api bvid cid, getVideoStreamsByCID api bvid cid = Ok streams) :
  GetStreamByQuality streams "best" = GetBestQualityStream streams
  /\ exists (i : nat) s,
      GetStreamByQuality streams "best" = Some s
      /\ GetBestQualityStream streams = Some s
      /\ streams !! i = Some s
      /\ Forall (fun x => StreamInfo.Quality x <= StreamInfo.Quality s) streams
      /\ forall (j : nat) x, (j < i)%nat -> streams !! j = Some x ->
           StreamInfo.Quality x < StreamInfo.Quality s.
Proof.
  assert (Hsame : GetStreamByQuality streams "best" = GetBestQualityStream streams).
  { destruct Hvariants as [Htiers | (api & bvid & cid & Hok)];
      [|exact (best_label_on_resolved api bvid cid streams Hok)].
    apply best_label_bounded.
    eapply Forall_impl; [exact Htiers|].
    intros s Hs. simpl in Hs. unfold knownTiers in Hs.
    repeat (apply elem_of_cons in Hs as [-> | Hs]; [lia|]). inversion Hs. }
  split; [exact Hsame|]. rewrite Hsame.
  destruct streams as [|first rest]; [congruence|].
  rewrite GetBestQualityStream_cons.
  assert (Hmax : Forall (fun x => StreamInfo.Quality x
                                  <= StreamInfo.Quality (foldl better first rest))
                        (first :: rest)).
  { apply Forall_forall. intros x Hx. apply foldl_better_max. exact Hx. }
  destruct (foldl_better_position rest first) as [[Hkeep _] | (i & Hi & Hgt & Hbefore)].
  - exists 0%nat, first. rewrite Hkeep in *. split; [reflexivity|].
    split; [reflexivity|]. split; [reflexivity|].
    split; [exact Hmax|]. intros j x Hj. lia.
  - exists (S i), (foldl better first rest). split; [reflexivity|].
    split; [reflexivity|]. split; [exact Hi|]. split; [exact Hmax|].
    intros [|j] x Hj Hx; simpl in Hx.
    + injection Hx as <-. exact Hgt.
    + apply (Hbefore j); [lia | exact Hx].
Qed.

Lemma best_label_is_best_pick_witness :
  [Samples.mkStream 64 "u1"; Samples.mkStream 80 "u2"; Samples.mkStream 80 "u3"] <> []
  /\ Forall (fun s => StreamInfo.Quality s ∈ knownTiers)
            [Samples.mkStream 64 "u1"; Samples.mkStream 80 "u2"; Samples.mkStream 80 "u3"]
  /\ GetStreamByQuality
       [Samples.mkStream 64 "u1"; Samples.mkStream 80 "u2"; Samples.mkStream 80 "u3"] "best"
     = GetBestQualityStream
         [Samples.mkStream 64 "u1"; Samples.mkStream 80 "u2"; Samples.mkStream 80 "u3"].
Proof.
  assert (Hne : [Samples.mkStream 64 "u1"; Samples.mkStream 80 "u2";
                 Samples.mkStream 80 "u3"] <> []) by discriminate.
  assert (Htiers : Forall (fun s => StreamInfo.Quality s ∈ knownTiers)
                          [Samples.mkStream 64 "u1"; Samples.mkStream 80 "u2";
                           Samples.mkStream 80 "u3"]).
  { repeat constructor. }
  split; [exact Hne|]. split; [exact Htiers|].
  exact (proj1 (best_label_is_best_pick _ Hne (or_introl Htiers))).
Defined.

(** C1 as stated fails: the 1080p rendition offered in two codecs gives two
    variants of tier 80. *)
Lemma one_variant_per_tier_counterexample :
  ~ (forall api bvid cid streams,
        getVideoStreamsByCID api bvid cid = Ok streams ->
        NoDup (StreamInfo.Quality <$> streams)).
Proof.
  intros H.
  specialize (H (Samples.playing Samples.twoCodecs Samples.legacy74)
                "BV1qt4y1X7TW"%string 101 _ eq_refl).
  vm_compute in H. apply NoDup_cons in H as [Hnotin _].
  apply Hnotin. left.
Qed.

Lemma dash_renditions_all_kept_witness :
  playurl (Samples.playing Samples.twoCodecs Samples.legacy74) "BV1qt4y1X7TW" 101
  = Answer 0 "0" Samples.twoCodecs
  /\ Exists recognised (PlayURL.Video Samples.twoCodecs)
  /\ exists streams,
      getVideoStreamsByCID (Samples.playing Samples.twoCodecs Samples.legacy74)
                           "BV1qt4y1X7TW" 101 = Ok streams
      /\ length streams = 3%nat.
Proof.
  split; [reflexivity|].
  assert (Hsome : Exists recognised (PlayURL.Video Samples.twoCodecs))
    by (apply Exists_cons_hd; left).
  split; [exact Hsome|].
  destruct (dash_renditions_all_kept
              (Samples.playing Samples.twoCodecs Samples.legacy74)
              "BV1qt4y1X7TW" 101 "0" Samples.twoCodecs eq_refl Hsome)
    as (streams & Hok & _ & Hlen & _).
  exists streams. split; [exact Hok|]. rewrite Hlen. reflexivity.
Defined.

(** C2 as stated fails: when the modern answer has no rendition and the
    legacy answer is at quality 74, the returned variant has tier 74. *)
Lemma closed_vocabulary_counterexample :
  ~ (forall api bvid cid streams,
        getVideoStreamsByCID api bvid cid = Ok streams ->
        Forall (fun s => StreamInfo.Quality s ∈ knownTiers) streams).
Proof.
  intros H.
  specialize (H (Samples.playing Samples.noDash Samples.legacy74)
                "BV1qt4y1X7TW"%string 101 _ eq_refl).
  apply Forall_inv in H. change (74 ∈ knownTiers) in H. unfold knownTiers in H.
  repeat (apply elem_of_cons in H as [H | H]; [discriminate H|]).
  inversion H.
Qed.

Lemma resolved_tiers_witness :
  getVideoStreamsByCID (Samples.playing Samples.noDash Samples.legacy74)
                       "BV1qt4y1X7TW" 101
  = Ok [legacyStream 74 {| DURL.URL := "d1"; DURL.Size := 1000; DURL.Length := 60 |}]
  /\ ((exists message data,
         playurl (Samples.playing Samples.noDash Samples.legacy74) "BV1qt4y1X7TW" 101
         = Answer 0 message data
         /\ [legacyStream 74 {| DURL.URL := "d1"; DURL.Size := 1000; DURL.Length := 60 |}]
            = map (fun video => dashStream (PlayURL.Audio data) video (DashVideo.ID video))
                  (filter recognised (PlayURL.Video data))
         /\ Forall (fun s => StreamInfo.Quality s ∈ knownTiers)
                   [legacyStream 74 {| DURL.URL := "d1"; DURL.Size := 1000; DURL.Length := 60 |}])
      \/ (exists message legacy,
         playurlLegacy (Samples.playing Samples.noDash Samples.legacy74) "BV1qt4y1X7TW" 101
         = Answer 0 message legacy
         /\ getLegacyVideoStreams (Samples.playing Samples.noDash Samples.legacy74)
                                  "BV1qt4y1X7TW" 101
            = Ok [legacyStream 74 {| DURL.URL := "d1"; DURL.Size := 1000; DURL.Length := 60 |}]
         /\ length [legacyStream 74 {| DURL.URL := "d1"; DURL.Size := 1000; DURL.Length := 60 |}]
            = length (LegacyPlayURL.DURL legacy)
         /\ Forall (fun s => StreamInfo.Quality s = LegacyPlayURL.Quality legacy)
                   [legacyStream 74 {| DURL.URL := "d1"; DURL.Size := 1000; DURL.Length := 60 |}])).
Proof.
  split; [reflexivity|].
  apply (resolved_tiers (Samples.playing Samples.noDash Samples.legacy74)
                        "BV1qt4y1X7TW" 101).
  reflexivity.
Defined.

(** C9 as stated fails: when the playback endpoints cannot be reached, the
    request for page 7 of a two-part video returns an error although the
    page list is not empty. *)
Lemma page_request_can_fail_counterexample :
  ~ (forall api videoInfo pageNum,
        VideoInfo.Pages videoInfo <> [] ->
        pageNum < 1 \/ Z.of_nat (length (VideoInfo.Pages videoInfo)) < pageNum ->
        exists streams, GetVideoStreamsForPage api videoInfo pageNum = Ok streams).
Proof.
  intros H.
  destruct (H Samples.offline (infoOfResponse Samples.twoParts) 7) as (streams & Hok).
  - discriminate.
  - right. simpl. lia.
  - vm_compute in Hok. discriminate Hok.
Qed.

Lemma page_out_of_range_witness :
  (7 < 1 \/ Z.of_nat (length (VideoInfo.Pages (infoOfResponse Samples.twoParts))) < 7)
  /\ GetVideoStreamsForPage Samples.offline (infoOfResponse Samples.twoParts) 7
     = getVideoStreamsByCID Samples.offline "BV1qt4y1X7TW" 101.
Proof.
  assert (Hout : 7 < 1 \/ Z.of_nat (length (VideoInfo.Pages (infoOfResponse Samples.twoParts))) < 7)
    by (right; simpl; lia).
  split; [exact Hout|].
  exact (proj1 (page_out_of_range Samples.offline (infoOfResponse Samples.twoParts) 7 Hout)).
Defined.

(** ** Fetching a single item *)

Section Metadata.

Variable api : Platform.

Lemma getVideoInfo_ok bvid message data :
  view api bvid = Answer 0 message (Ok data) ->
  getVideoInfo api bvid = Ok (infoOfResponse data).
Proof. intros Hview. unfold getVideoInfo. rewrite Hview. reflexivity. Qed.

Lemma parseVideoURL_multi rawURL message data :
  FindBVID rawURL <> EmptyString ->
  view api (FindBVID rawURL) = Answer 0 message (Ok data) ->
  (1 < length (VideoAPIResponse.Pages data))%nat ->
  parseVideoURL api rawURL
  = Ok (setType (infoOfResponse data) "playlist"
          (map (episodeOfPage (infoOfResponse data)) (VideoAPIResponse.Pages data))).
Proof.
  intros Hbvid Hview Hlen. unfold parseVideoURL.
  destruct (String.eqb_spec (FindBVID rawURL) "") as [Heq | _]; [contradiction|].
  rewrite (getVideoInfo_ok _ _ _ Hview). simpl.
  destruct (Nat.ltb_spec 1 (length (VideoAPIResponse.Pages data))); [reflexivity | lia].
Qed.

(** For an answer with status 0 whose page list has N > 1 entries, the
    item is a "playlist" with exactly N episodes, in the order of the
    pages, and the index of each episode is the page number the answer
    gives for that page. *)
Lemma multi_page_item rawURL message data
  (Hbvid : FindBVID rawURL <> EmptyString)
  (Hview : view api (FindBVID rawURL) = Answer 0 message (Ok data))
  (Hmany : (1 < length (VideoAPIResponse.Pages data))%nat) :
  exists videoInfo,
    parseVideoURL api rawURL = Ok videoInfo
    /\ VideoInfo.Type_ videoInfo = "playlist"%string
    /\ length (VideoInfo.Episodes videoInfo) = length (VideoAPIResponse.Pages data)
    /\ EpisodeInfo.CID <$> VideoInfo.Episodes videoInfo
       = PageInfo.CID <$> VideoAPIResponse.Pages data
    /\ EpisodeInfo.Index <$> VideoInfo.Episodes videoInfo
       = PageInfo.Page <$> VideoAPIResponse.Pages data
    /\ (PageInfo.Page <$> VideoAPIResponse.Pages data
        = seqZ 1 (Z.of_nat (length (VideoAPIResponse.Pages data))) ->
        EpisodeInfo.Index <$> VideoInfo.Episodes videoInfo
        = seqZ 1 (Z.of_nat (length (VideoAPIResponse.Pages data)))).
Proof.
  eexists. split; [apply (parseVideoURL_multi _ _ _ Hbvid Hview Hmany)|].
  simpl. split; [reflexivity|]. split; [apply length_map|].
  assert (Hindex : EpisodeInfo.Index <$> map (episodeOfPage (infoOfResponse data))
                                             (VideoAPIResponse.Pages data)
                   = PageInfo.Page <$> VideoAPIResponse.Pages data)
    by (rewrite <- list_fmap_compose; reflexivity).
  split; [rewrite <- list_fmap_compose; reflexivity|].
  split; [exact Hindex|]. intros Hnumbered. rewrite Hindex. exact Hnumbered.
Qed.

(** C3.  A valid item-metadata answer has status 0, decodes, and numbers
    its pages 1, 2, ... in order, the numbering [GetVideoStreamsForPage]
    relies on.  For every such answer with N > 1 pages, fetching the item
    gives a "playlist" with exactly N episodes, made from the pages in
    their order, whose indices are 1..N: the episode at position i has
    index i + 1. *)
Theorem multi_page_item_numbered rawURL message data
  (Hbvid : FindBVID rawURL <> EmptyString)
  (Hview : view api (FindBVID rawURL) = Answer 0 message (Ok data))
  (Hmany : (1 < length (VideoAPIResponse.Pages data))%nat)
  (Hvalid : PageInfo.Page <$> VideoAPIResponse.Pages data
            = seqZ 1 (Z.of_nat (length (VideoAPIResponse.Pages data)))) :
  exists videoInfo,
    parseVideoURL api rawURL = Ok videoInfo
    /\ VideoInfo.Type_ videoInfo = "playlist"%string
    /\ length (VideoInfo.Episodes videoInfo) = length (VideoAPIResponse.Pages data)
    /\ VideoInfo.Episodes videoInfo
       = map (episodeOfPage videoInfo) (VideoAPIResponse.Pages data)
    /\ EpisodeInfo.CID <$> VideoInfo.Episodes videoInfo
       = PageInfo.CID <$> VideoAPIResponse.Pages data
    /\ EpisodeInfo.Index <$> VideoInfo.Episodes videoInfo
       = seqZ 1 (Z.of_nat (length (VideoAPIResponse.Pages data)))
    /\ forall (i : nat) episode,
        VideoInfo.Episodes videoInfo !! i = Some episode ->
        EpisodeInfo.Index episode = Z.of_nat i + 1.
Proof.
  eexists. split; [apply (parseVideoURL_multi _ _ _ Hbvid Hview Hmany)|].
  simpl. split; [reflexivity|]. split; [apply length_map|].
  split; [reflexivity|].
  assert (Hindex : EpisodeInfo.Index <$> map (episodeOfPage (infoOfResponse data))
                                             (VideoAPIResponse.Pages data)
                   = seqZ 1 (Z.of_nat (length (VideoAPIResponse.Pages data))))
    by (rewrite <- Hvalid, <- list_fmap_compose; reflexivity).
  split; [rewrite <- list_fmap_compose; reflexivity|].
  split; [exact Hindex|].
  intros i episode Hepisode.
  assert (Hi : (EpisodeInfo.Index <$> map (episodeOfPage (infoOfResponse data))
                                          (VideoAPIResponse.Pages data)) !! i
               = Some (EpisodeInfo.Index episode))
    by (rewrite list_lookup_fmap, Hepisode; reflexivity).
  rewrite Hindex in Hi. apply lookup_seqZ in Hi as [-> _]. lia.
Qed.

(** C6.  For an item with more than one page, the episode made from a
    page is titled with the page's part title when that is not empty,
    and else with the item's title, " - P" and the page number. *)
Theorem sub_item_title rawURL message data (i : nat) page
  (Hbvid : FindBVID rawURL <> EmptyString)
  (Hview : view api (FindBVID rawURL) = Answer 0 message (Ok data))
  (Hmany : (1 < length (VideoAPIResponse.Pages data))%nat)
  (Hpage : VideoAPIResponse.Pages data !! i = Some page) :
  exists videoInfo episode,
    parseVideoURL api rawURL = Ok videoInfo
    /\ VideoInfo.Episodes videoInfo !! i = Some episode
    /\ (PageInfo.Part page <> EmptyString ->
        EpisodeInfo.Title episode = PageInfo.Part page)
    /\ (PageInfo.Part page = EmptyString ->
        EpisodeInfo.Title episode
        = VideoInfo.Title videoInfo +:+ " - P" +:+ GoStr.formatInt (PageInfo.Page page)).
Proof.
  eexists. exists (episodeOfPage (infoOfResponse data) page).
  split; [apply (parseVideoURL_multi _ _ _ Hbvid Hview Hmany)|].
  simpl. split.
  - change (map ?f ?l) with (f <$> l). rewrite list_lookup_fmap, Hpage. reflexivity.
  - destruct (String.eqb_spec (PageInfo.Part page) "") as [Hempty | Hpart];
      split; intros H; try contradiction; reflexivity.
Qed.

End Metadata.

Lemma multi_page_item_numbered_witness :
  FindBVID Samples.videoURL <> EmptyString
  /\ view (Samples.serving Samples.twoParts) (FindBVID Samples.videoURL)
     = Answer 0 "0" (Ok Samples.twoParts)
  /\ (1 < length (VideoAPIResponse.Pages Samples.twoParts))%nat
  /\ PageInfo.Page <$> VideoAPIResponse.Pages Samples.twoParts
     = seqZ 1 (Z.of_nat (length (VideoAPIResponse.Pages Samples.twoParts)))
  /\ exists videoInfo,
      parseVideoURL (Samples.serving Samples.twoParts) Samples.videoURL = Ok videoInfo
      /\ VideoInfo.Type_ videoInfo = "playlist"%string
      /\ length (VideoInfo.Episodes videoInfo) = 2%nat
      /\ EpisodeInfo.Index <$> VideoInfo.Episodes videoInfo = [1; 2].
Proof.
  assert (Hbvid : FindBVID Samples.videoURL <> EmptyString)
    by (vm_compute; discriminate).
  assert (Hmany : (1 < length (VideoAPIResponse.Pages Samples.twoParts))%nat)
    by (simpl; lia).
  assert (Hvalid : PageInfo.Page <$> VideoAPIResponse.Pages Samples.twoParts
                   = seqZ 1 (Z.of_nat (length (VideoAPIResponse.Pages Samples.twoParts))))
    by reflexivity.
  split; [exact Hbvid|]. split; [reflexivity|]. split; [exact Hmany|].
  split; [exact Hvalid|].
  destruct (multi_page_item_numbered (Samples.serving Samples.twoParts) Samples.videoURL
                                     "0" Samples.twoParts Hbvid eq_refl Hmany Hvalid)
    as (videoInfo & Hparse & Htype & Hlen & _ & _ & Hindex & _).
  exists videoInfo. repeat split; assumption.
Defined.

Lemma sub_item_title_witness :
  exists videoInfo episode,
    parseVideoURL (Samples.serving Samples.twoParts) Samples.videoURL = Ok videoInfo
    /\ VideoInfo.Episodes videoInfo !! 1%nat = Some episode
    /\ EpisodeInfo.Title episode = "Lecture - P2"%string.
Proof.
  assert (Hbvid : FindBVID Samples.videoURL <> EmptyString)
    by (vm_compute; discriminate).
  assert (Hmany : (1 < length (VideoAPIResponse.Pages Samples.twoParts))%nat)
    by (simpl; lia).
  destruct (sub_item_title (Samples.serving Samples.twoParts) Samples.videoURL
                           "0" Samples.twoParts 1 (Samples.mkPage 102 EmptyString 2)
                           Hbvid eq_refl Hmany eq_refl)
    as (videoInfo & episode & Hparse & Hepisode & _ & Hsynth).
  exists videoInfo, episode. split; [exact Hparse|]. split; [exact Hepisode|].
  rewrite (Hsynth eq_refl).
  assert (Htitle : VideoInfo.Title videoInfo = "Lecture"%string).
  { assert (Hrun : parseVideoURL (Samples.serving Samples.twoParts) Samples.videoURL
                   = Ok (setType (infoOfResponse Samples.twoParts) "playlist"
                           (map (episodeOfPage (infoOfResponse Samples.twoParts))
                                (VideoAPIResponse.Pages Samples.twoParts))))
      by reflexivity.
    rewrite Hrun in Hparse. injection Hparse as <-. reflexivity. }
  rewrite Htitle. reflexivity.
Defined.

(** ** Printing and scanning numbers, splitting strings *)

Section Numbers.

Import GoStr.

Lemma pretty_N_char_digit (x : N) :
  (x < 10)%N ->
  isDigit (pretty_N_char x) = true
  /\ Z.of_nat (code (pretty_N_char x) - 48) = Z.of_N x.
Proof.
  intros Hlt.
  assert (x = 0 \/ x = 1 \/ x = 2 \/ x = 3 \/ x = 4 \/ x = 5 \/ x = 6
          \/ x = 7 \/ x = 8 \/ x = 9)%N as Hcases by lia.
  repeat (destruct Hcases as [-> | Hcases]; [split; reflexivity|]).
  subst x. split; reflexivity.
Qed.

Lemma scanNumber_pretty_go (x : N) : forall s acc count,
  exists k : nat,
    scanNumber acc count (pretty_N_go x s)
    = scanNumber (acc * 10 ^ Z.of_nat k + Z.of_N x) (count + k) s
    /\ ((0 < x)%N -> (0 < k)%nat).
Proof.
  induction (N.lt_wf_0 x) as [x _ IH]; intros s acc count.
  destruct (N.eq_dec x 0%N) as [-> | Hpos].
  - exists 0%nat. rewrite pretty_N_go_0. split; [|lia].
    f_equal; [simpl; lia | lia].
  - rewrite pretty_N_go_step by lia.
    destruct (IH (x `div` 10)%N (N.div_lt x 10 ltac:(lia) eq_refl)
                 (String (pretty_N_char (x `mod` 10)) s) acc count)
      as (k & Hscan & _).
    exists (S k). split; [|lia]. rewrite Hscan.
    destruct (pretty_N_char_digit (x `mod` 10)%N) as [Hdigit Hvalue];
      [apply N.mod_lt; lia|].
    simpl scanNumber. rewrite Hdigit, Hvalue. f_equal; [|lia].
    rewrite N2Z.inj_div, N2Z.inj_mod, Nat2Z.inj_succ, Z.pow_succ_r by lia.
    change (Z.of_N 10) with 10.
    pose proof (Z.div_mod (Z.of_N x) 10 ltac:(lia)). lia.
Qed.

Lemma allDigits_pretty_go (x : N) : forall s,
  allDigits s = true -> allDigits (pretty_N_go x s) = true.
Proof.
  induction (N.lt_wf_0 x) as [x _ IH]; intros s Hs.
  destruct (N.eq_dec x 0%N) as [-> | Hpos].
  - rewrite pretty_N_go_0. exact Hs.
  - rewrite pretty_N_go_step by lia.
    apply IH; [apply N.div_lt; lia|]. simpl.
    destruct (pretty_N_char_digit (x `mod` 10)%N) as [-> _];
      [apply N.mod_lt; lia | exact Hs].
Qed.

Lemma formatInt_digits (n : Z) :
  0 <= n ->
  allDigits (formatInt n) = true
  /\ exists k : nat, scanNumber 0 0 (formatInt n) = (n, S k).
Proof.
  intros Hn. destruct n as [|p|p]; [split; [reflexivity | exists 0%nat; reflexivity]| |lia].
  unfold formatInt, pretty, pretty_Z, pretty, pretty_positive, pretty, pretty_N.
  destruct (decide (N.pos p = 0%N)) as [Hzero | _]; [discriminate Hzero|].
  split; [apply allDigits_pretty_go; reflexivity|].
  destruct (scanNumber_pretty_go (N.pos p) "" 0 0) as (k & -> & Hk).
  destruct k as [|k]; [specialize (Hk ltac:(lia)); lia|].
  exists k. reflexivity.
Qed.

Lemma digit_codes (c : ascii) :
  isDigit c = true -> (48 <= code c <= 57)%nat.
Proof.
  unfold isDigit. intros H. apply andb_true_iff in H as [H1 H2].
  apply Nat.leb_le in H1, H2. lia.
Qed.

Lemma SkipSpace_digit (c : ascii) (rest : string) :
  isDigit c = true -> SkipSpace (String c rest) = Some (String c rest).
Proof.
  intros Hc. apply digit_codes in Hc.
  assert (H10 : (code c =? 10)%nat = false) by (apply Nat.eqb_neq; lia).
  assert (H1 : space1 (code c) = false).
  { unfold space1. destruct (Nat.leb_spec 9 (code c)), (Nat.leb_spec (code c) 13),
      (Nat.eqb_spec (code c) 32); simpl; (reflexivity || lia). }
  assert (H2 : forall b, space2 (code c) b = false).
  { intros b. unfold space2. destruct (Nat.eqb_spec (code c) 194); [lia | reflexivity]. }
  assert (H3 : forall b b', space3 (code c) b b' = false).
  { intros b b'. unfold space3.
    destruct (Nat.eqb_spec (code c) 225), (Nat.eqb_spec (code c) 226),
      (Nat.eqb_spec (code c) 227); (lia || reflexivity). }
  cbn [SkipSpace]. rewrite H10, H1.
  destruct rest as [|c2 [|c3 r3]]; rewrite ?H2, ?H3; reflexivity.
Qed.

Lemma digit_not_sign (c : ascii) :
  isDigit c = true -> Ascii.eqb c "-" = false /\ Ascii.eqb c "+" = false.
Proof.
  intros Hc. apply digit_codes in Hc.
  split; apply Ascii.eqb_neq; intros ->; vm_compute in Hc; lia.
Qed.

(** Scanning what [%d] printed gives the number back. *)
Lemma Sscanf_d_formatInt (n : Z) :
  0 <= n <= maxInt -> Sscanf_d (formatInt n) = Some n.
Proof.
  intros [Hlo Hhi].
  destruct (formatInt_digits n Hlo) as (Hall & k & Hscan).
  unfold Sscanf_d.
  destruct (formatInt n) as [|c rest] eqn:Hfmt; [discriminate Hscan|].
  simpl in Hall. apply andb_true_iff in Hall as [Hc _].
  rewrite (SkipSpace_digit c rest Hc).
  destruct (digit_not_sign c Hc) as [-> ->].
  rewrite Hscan.
  destruct (Z.leb_spec minInt n) as [_ | Hbad]; [|unfold minInt in Hbad; lia].
  destruct (Z.leb_spec n maxInt) as [_ | Hbad]; [reflexivity | lia].
Qed.

Lemma allDigits_no_dash (s : string) :
  allDigits s = true -> Contains s "-" = false.
Proof.
  induction s as [|c rest IH]; [reflexivity|]. simpl.
  intros H. apply andb_true_iff in H as [Hc Hrest].
  destruct (digit_not_sign c Hc) as [-> _]. simpl. apply IH, Hrest.
Qed.

Lemma Contains_append (a b : string) (sep : ascii) :
  Contains (a +:+ String sep b) sep = true.
Proof.
  induction a as [|c a IH]; simpl.
  - rewrite Ascii.eqb_refl. reflexivity.
  - rewrite IH. apply orb_true_r.
Qed.

Lemma Split_none (s : string) (sep : ascii) :
  Contains s sep = false -> Split s sep = [s].
Proof.
  induction s as [|c rest IH]; [reflexivity|]. simpl.
  intros H. apply orb_false_iff in H as [-> Hrest].
  rewrite (IH Hrest). reflexivity.
Qed.

Lemma Split_append (a b : string) (sep : ascii) :
  Contains a sep = false ->
  Split (a +:+ String sep b) sep = a :: Split b sep.
Proof.
  induction a as [|c a IH]; simpl.
  - intros _. rewrite Ascii.eqb_refl. reflexivity.
  - intros H. apply orb_false_iff in H as [-> Ha].
    rewrite (IH Ha). reflexivity.
Qed.

End Numbers.

(** ** The page-selection expression *)

Section Expressions.

Import GoStr Cmd.

(** A range written with two page numbers expands to all the pages from
    the first to the second. *)
Lemma parsePart_range (first last : Z) :
  0 <= first <= last -> last < maxInt ->
  parsePart (formatInt first +:+ "-" +:+ formatInt last)
  = Some (Ok (seqZ first (last - first + 1))).
Proof.
  intros [Hfirst Horder] Hlast.
  destruct (formatInt_digits first Hfirst) as [Hd1 _].
  destruct (formatInt_digits last ltac:(lia)) as [Hd2 _].
  unfold parsePart.
  change ("-" +:+ formatInt last) with (String "-" (formatInt last)).
  rewrite Contains_append, Split_append by (apply allDigits_no_dash, Hd1).
  rewrite Split_none by (apply allDigits_no_dash, Hd2).
  unfold parseInt. rewrite !Sscanf_d_formatInt by lia.
  destruct (Z.ltb_spec last first); [lia|].
  destruct (Z.eqb_spec last maxInt); [lia | reflexivity].
Qed.

Lemma parsePart_single (page : Z) :
  0 <= page <= maxInt -> parsePart (formatInt page) = Some (Ok [page]).
Proof.
  intros Hpage.
  destruct (formatInt_digits page ltac:(lia)) as [Hd _].
  unfold parsePart. rewrite (allDigits_no_dash _ Hd).
  unfold parseInt. rewrite Sscanf_d_formatInt by lia. reflexivity.
Qed.

(** The parts are taken in the order written and their indices put one
    after the other. *)
Lemma parseParts_concat (parts : list string) : forall indices found,
  parseParts indices parts = Some (Ok found)
  <-> exists each,
      Forall2 (fun part new => parsePart (TrimSpace part) = Some (Ok new)) parts each
      /\ found = indices ++ concat each.
Proof.
  induction parts as [|part parts IH]; intros indices found; simpl.
  - split.
    + intros [= <-]. exists []. split; [constructor | simpl; rewrite app_nil_r; reflexivity].
    + intros (each & Heach & ->). inversion Heach; subst. simpl.
      rewrite app_nil_r. reflexivity.
  - destruct (parsePart (TrimSpace part)) as [[new | err]|] eqn:Hpart.
    + rewrite IH. split.
      * intros (each & Heach & ->). exists (new :: each).
        split; [constructor; assumption|]. simpl. rewrite app_assoc. reflexivity.
      * intros (each & Heach & ->). inversion Heach as [|? new' ? each' Hnew Hrest]; subst.
        assert (new' = new) as -> by congruence.
        exists each'. split; [exact Hrest|]. simpl. rewrite app_assoc. reflexivity.
    + split; [discriminate|].
      intros (each & Heach & _). inversion Heach; subst. congruence.
    + split; [discriminate|].
      intros (each & Heach & _). inversion Heach; subst. congruence.
Qed.

End Expressions.

(** ** Selecting the episodes to download *)

Section Selection.

Import Cmd.

Implicit Types (episodes selected : list EpisodeInfo.t) (indices : list Z).

Lemma pickEpisode_out episodes idx :
  ~ inRange episodes idx -> pickEpisode episodes idx = [].
Proof.
  unfold inRange, pickEpisode. intros Hout.
  destruct (Z.ltb_spec 0 idx); [|reflexivity].
  destruct (Z.leb_spec idx (Z.of_nat (length episodes))); [lia | reflexivity].
Qed.

Lemma pickEpisode_in episodes idx :
  inRange episodes idx ->
  exists episode, episodes !! Z.to_nat (idx - 1) = Some episode
                  /\ pickEpisode episodes idx = [episode].
Proof.
  unfold inRange, pickEpisode. intros [Hlo Hhi].
  destruct (Z.ltb_spec 0 idx); [|lia].
  destruct (Z.leb_spec idx (Z.of_nat (length episodes))); [|lia]. simpl.
  destruct (lookup_lt_is_Some_2 episodes (Z.to_nat (idx - 1))) as [episode Hep]; [lia|].
  exists episode. rewrite Hep. auto.
Qed.

Lemma select_loop episodes indices : forall selected,
  foldl (fun selected idx => selected ++ pickEpisode episodes idx) selected indices
  = selected ++ omap (fun idx => episodes !! Z.to_nat (idx - 1))
                     (filter (inRange episodes) indices).
Proof.
  induction indices as [|idx indices IH]; intros selected; simpl.
  - rewrite app_nil_r. reflexivity.
  - rewrite IH, filter_cons.
    destruct (decide (inRange episodes idx)) as [Hin | Hout].
    + destruct (pickEpisode_in _ _ Hin) as (episode & Hep & ->).
      simpl. rewrite Hep, <- app_assoc. reflexivity.
    + rewrite (pickEpisode_out _ _ Hout), app_nil_r. reflexivity.
Qed.

Lemma select_length episodes indices :
  length (omap (fun idx => episodes !! Z.to_nat (idx - 1))
               (filter (inRange episodes) indices))
  = length (filter (inRange episodes) indices).
Proof.
  induction indices as [|idx indices IH]; [reflexivity|].
  rewrite filter_cons.
  destruct (decide (inRange episodes idx)) as [Hin | Hout]; [|exact IH].
  destruct (pickEpisode_in _ _ Hin) as (episode & Hep & _).
  simpl. rewrite Hep. simpl. f_equal. exact IH.
Qed.

(** C8.  The expression "1-2,4" parses to the indices 1, 2, 4 whatever
    the size given, and on a collection of five episodes it selects the
    first, the second and the fourth, in that order.  In general a range
    written first-last stands for every page from first to last, and the
    indices of the comma-separated parts follow one another in the order
    the parts are written. *)
Theorem page_range_example :
  (forall size, parsePageRange "1-2,4" size = Some (Ok [1; 2; 4]))
  /\ (forall videoInfo e1 e2 e3 e4 e5,
        episodesToDownload (setType videoInfo "playlist" [e1; e2; e3; e4; e5]) "1-2,4"
        = Some (Ok [e1; e2; e4]))
  /\ (forall first last page,
        0 <= first <= last /\ last < maxInt ->
        parsePart (GoStr.formatInt first +:+ "-" +:+ GoStr.formatInt last)
        = Some (Ok (seqZ first (last - first + 1)))
        /\ (page ∈ seqZ first (last - first + 1) <-> first <= page <= last))
  /\ (forall pages size found,
        parsePageRange pages size = Some (Ok found)
        <-> exists each,
            Forall2 (fun part new => parsePart (GoStr.TrimSpace part) = Some (Ok new))
                    (GoStr.Split pages ",") each
            /\ found = concat each).
Proof.
  split; [|split; [|split]].
  - intros size. vm_compute. reflexivity.
  - intros videoInfo e1 e2 e3 e4 e5. reflexivity.
  - intros first last page [Horder Hlast]. split.
    + apply parsePart_range; assumption.
    + rewrite elem_of_seqZ. lia.
  - intros pages size found. unfold parsePageRange.
    rewrite parseParts_concat. reflexivity.
Qed.

(** C10.  When the expression is not "all" and parses, the parser gives
    the same indices for every size argument, the selection is made of
    the episodes at the indices that lie in 1..(number of episodes), in
    the order of the indices, the other indices adding nothing and
    raising no error, and the download loop goes through exactly the
    selected episodes. *)
Theorem out_of_range_indices_dropped (videoInfo : VideoInfo.t) (pages : string) indices
  (Hexpr : pages <> "all"%string)
  (Hparse : parsePageRange pages (Z.of_nat (length (VideoInfo.Episodes videoInfo)))
            = Some (Ok indices)) :
  let episodes := VideoInfo.Episodes videoInfo in
  let kept := filter (inRange episodes) indices in
  (forall size, parsePageRange pages size = Some (Ok indices))
  /\ exists selected,
      episodesToDownload videoInfo pages = Some (Ok selected)
      /\ selected = omap (fun idx => episodes !! Z.to_nat (idx - 1)) kept
      /\ length selected = length kept
      /\ forall api DownloadVideo,
          downloadPlaylist api DownloadVideo videoInfo pages
          = Some (Ok (map (downloadEpisode api DownloadVideo videoInfo) selected)).
Proof.
  intros episodes kept. split; [intros size; exact Hparse|].
  assert (Hsel : episodesToDownload videoInfo pages
                 = Some (Ok (omap (fun idx => episodes !! Z.to_nat (idx - 1)) kept))).
  { unfold episodesToDownload.
    destruct (String.eqb_spec pages "all") as [Hall | _]; [contradiction|].
    rewrite Hparse, select_loop. reflexivity. }
  eexists. split; [exact Hsel|]. split; [reflexivity|].
  split; [apply select_length|].
  intros api DownloadVideo. unfold downloadPlaylist. rewrite Hsel. reflexivity.
Qed.

End Selection.

Lemma out_of_range_indices_dropped_witness :
  ("1,5,2-3,0" <> "all")%string
  /\ Cmd.parsePageRange "1,5,2-3,0"
       (Z.of_nat (length (VideoInfo.Episodes Samples.threeEpisodes)))
     = Some (Ok [1; 5; 2; 3; 0])
  /\ Cmd.episodesToDownload Samples.threeEpisodes "1,5,2-3,0"
     = Some (Ok (VideoInfo.Episodes Samples.threeEpisodes)).
Proof.
  assert (Hexpr : ("1,5,2-3,0" <> "all")%string) by discriminate.
  assert (Hparse : Cmd.parsePageRange "1,5,2-3,0"
                     (Z.of_nat (length (VideoInfo.Episodes Samples.threeEpisodes)))
                   = Some (Ok [1; 5; 2; 3; 0])) by (vm_compute; reflexivity).
  split; [exact Hexpr|]. split; [exact Hparse|].
  destruct (out_of_range_indices_dropped Samples.threeEpisodes "1,5,2-3,0"
                                         [1; 5; 2; 3; 0] Hexpr Hparse)
    as (_ & selected & Hsel & -> & _).
  exact Hsel.
Defined.


(** * Further properties *)

(** ** Numbers and trimming *)

Section MoreNumbers.

Import GoStr.

Lemma digit_plain (c : ascii) : isDigit c = true -> plainByte c.
Proof. intros Hc. apply digit_codes in Hc. unfold plainByte. lia. Qed.

Lemma plain_not_space (c : ascii) :
  plainByte c ->
  (code c =? 10)%nat = false /\ space1 (code c) = false
  /\ (forall b, space2 (code c) b = false /\ space2 b (code c) = false)
  /\ (forall b b', space3 (code c) b b' = false /\ space3 b b' (code c) = false).
Proof.
  unfold plainByte. intros Hc.
  split; [apply Nat.eqb_neq; lia|]. split.
  { unfold space1. destruct (Nat.leb_spec 9 (code c)), (Nat.leb_spec (code c) 13),
      (Nat.eqb_spec (code c) 32); simpl; (reflexivity || lia). }
  split.
  - intros b. unfold space2. split.
    + destruct (Nat.eqb_spec (code c) 194); [lia | reflexivity].
    + destruct (Nat.eqb_spec (code c) 133), (Nat.eqb_spec (code c) 160); try lia.
  - intros b b'. unfold space3. split.
    + destruct (Nat.eqb_spec (code c) 225), (Nat.eqb_spec (code c) 226),
        (Nat.eqb_spec (code c) 227); (lia || reflexivity).
    + destruct (Nat.eqb_spec (code c) 128), (Nat.leb_spec 128 (code c)),
        (Nat.eqb_spec (code c) 168), (Nat.eqb_spec (code c) 169),
        (Nat.eqb_spec (code c) 175), (Nat.eqb_spec (code c) 159); try lia.
Qed.

Lemma trimFront_plain (back : bool) (c : ascii) (rest : string) :
  plainByte c -> trimFront back (String c rest) = String c rest.
Proof.
  intros Hc. destruct (plain_not_space c Hc) as (_ & H1 & H2 & H3).
  cbn [trimFront]. rewrite H1.
  destruct rest as [|c2 [|c3 r3]]; [reflexivity | |].
  - destruct back; [rewrite (proj2 (H2 _)) | rewrite (proj1 (H2 _))]; reflexivity.
  - destruct back.
    + rewrite (proj2 (H2 _)), (proj2 (H3 _ _)). reflexivity.
    + rewrite (proj1 (H2 _)), (proj1 (H3 _ _)). reflexivity.
Qed.

Lemma SkipSpace_plain (c : ascii) (rest : string) :
  plainByte c -> SkipSpace (String c rest) = Some (String c rest).
Proof.
  intros Hc. destruct (plain_not_space c Hc) as (H10 & H1 & H2 & H3).
  cbn [SkipSpace]. rewrite H10, H1.
  destruct rest as [|c2 [|c3 r3]]; [reflexivity | |].
  - rewrite (proj1 (H2 _)). reflexivity.
  - rewrite (proj1 (H2 _)), (proj1 (H3 _ _)). reflexivity.
Qed.

Lemma append_cons (c : ascii) (a b : string) :
  String c a +:+ b = String c (a +:+ b).
Proof. reflexivity. Qed.

Lemma append_nil_r (s : string) : s +:+ "" = s.
Proof.
  induction s as [|c s IH]; [reflexivity|].
  rewrite append_cons, IH. reflexivity.
Qed.

Lemma append_assoc (a b c : string) : (a +:+ b) +:+ c = a +:+ (b +:+ c).
Proof.
  induction a as [|x a IH]; [reflexivity|].
  rewrite !append_cons, IH. reflexivity.
Qed.

Lemma rev_app_app (s1 s2 acc : string) :
  String.rev_app (s1 +:+ s2) acc = String.rev_app s2 (String.rev_app s1 acc).
Proof.
  revert acc. induction s1 as [|c s1 IH]; intros acc; [reflexivity|].
  rewrite append_cons. simpl. apply IH.
Qed.

Lemma rev_app_rev_app (s1 s2 s3 : string) :
  String.rev_app (String.rev_app s1 s2) s3 = String.rev_app s2 (s1 +:+ s3).
Proof.
  revert s2 s3. induction s1 as [|c s1 IH]; intros s2 s3; [reflexivity|].
  simpl. rewrite IH. reflexivity.
Qed.

Lemma rev_involutive (s : string) : String.rev (String.rev s) = s.
Proof.
  unfold String.rev. rewrite rev_app_rev_app. apply append_nil_r.
Qed.

Lemma rev_snoc (s : string) (c : ascii) :
  String.rev (s +:+ String c "") = String c (String.rev s).
Proof. unfold String.rev. rewrite rev_app_app. reflexivity. Qed.

(** Trimming leaves alone a string that starts and ends with a plain byte. *)
Lemma TrimSpace_plain_ends (first last : ascii) (middle : string) :
  plainByte first -> plainByte last ->
  TrimSpace (String first (middle +:+ String last "")) = String first (middle +:+ String last "").
Proof.
  intros Hfirst Hlast. unfold TrimSpace.
  rewrite (trimFront_plain false first _ Hfirst).
  change (String first (middle +:+ String last ""))
    with ((String first middle) +:+ String last "").
  rewrite rev_snoc, (trimFront_plain true last _ Hlast), <- rev_snoc.
  apply rev_involutive.
Qed.

Lemma TrimSpace_plain_single (c : ascii) :
  plainByte c -> TrimSpace (String c "") = String c "".
Proof.
  intros Hc. unfold TrimSpace.
  rewrite (trimFront_plain false c _ Hc). change (String.rev (String c "")) with (String c "").
  rewrite (trimFront_plain true c _ Hc). reflexivity.
Qed.

Lemma allDigits_app (a b : string) :
  allDigits (a +:+ b) = allDigits a && allDigits b.
Proof.
  induction a as [|c a IH]; [reflexivity|].
  rewrite append_cons. simpl. rewrite IH. apply andb_assoc.
Qed.

Lemma string_snoc (s : string) :
  s <> EmptyString -> exists s0 c, s = s0 +:+ String c "".
Proof.
  induction s as [|c s IH]; [congruence|]. intros _.
  destruct s as [|c' s'].
  - exists EmptyString, c. reflexivity.
  - destruct IH as (s0 & c0 & Heq); [discriminate|].
    exists (String c s0), c0. rewrite append_cons, <- Heq. reflexivity.
Qed.

Lemma formatInt_nonempty (n : Z) : 0 <= n -> formatInt n <> EmptyString.
Proof.
  intros Hn Hempty. destruct (formatInt_digits n Hn) as (_ & k & Hscan).
  rewrite Hempty in Hscan. discriminate.
Qed.

(** Trimming leaves alone a text that starts with a printed number and
    ends with one. *)
Lemma TrimSpace_between_numbers (a b : Z) (middle : string) :
  0 <= a -> 0 <= b ->
  TrimSpace (formatInt a +:+ middle +:+ formatInt b)
  = formatInt a +:+ middle +:+ formatInt b.
Proof.
  intros Ha Hb.
  destruct (formatInt_digits a Ha) as [Hda _].
  destruct (formatInt_digits b Hb) as [Hdb _].
  destruct (formatInt a) as [|ca ra] eqn:Hfa; [destruct (formatInt_nonempty a Ha Hfa)|].
  destruct (string_snoc (formatInt b) (formatInt_nonempty b Hb)) as (b0 & cb & Hfb).
  rewrite Hfb in *.
  simpl in Hda. apply andb_true_iff in Hda as [Hca _].
  rewrite allDigits_app in Hdb. apply andb_true_iff in Hdb as [_ Hcb].
  simpl in Hcb. rewrite andb_true_r in Hcb.
  replace (String ca ra +:+ middle +:+ b0 +:+ String cb "")
    with (String ca ((ra +:+ middle +:+ b0) +:+ String cb "")).
  - apply TrimSpace_plain_ends; apply digit_plain; assumption.
  - rewrite !append_cons, !append_assoc. reflexivity.
Qed.

Lemma TrimSpace_number (n : Z) : 0 <= n -> TrimSpace (formatInt n) = formatInt n.
Proof.
  intros Hn.
  destruct (formatInt_digits n Hn) as [Hd _].
  destruct (string_snoc (formatInt n) (formatInt_nonempty n Hn)) as (s0 & c & Hf).
  rewrite Hf in *. rewrite allDigits_app in Hd.
  apply andb_true_iff in Hd as [Hd0 Hc]. simpl in Hc. rewrite andb_true_r in Hc.
  destruct s0 as [|c0 s0]; simpl.
  - apply TrimSpace_plain_single, digit_plain, Hc.
  - simpl in Hd0. apply andb_true_iff in Hd0 as [Hc0 _].
    apply TrimSpace_plain_ends; apply digit_plain; assumption.
Qed.

End MoreNumbers.

(** ** More on the page-selection expression *)

Section MoreExpressions.

Import GoStr Cmd.

Lemma Contains_app (a b : string) (sep : ascii) :
  Contains (a +:+ b) sep = Contains a sep || Contains b sep.
Proof.
  induction a as [|c a IH]; [reflexivity|].
  rewrite append_cons. simpl. rewrite IH. apply orb_assoc.
Qed.

Lemma allDigits_Contains (s : string) (sep : ascii) :
  isDigit sep = false -> allDigits s = true -> Contains s sep = false.
Proof.
  intros Hsep. induction s as [|c s IH]; [reflexivity|]. simpl.
  intros H. apply andb_true_iff in H as [Hc Hs].
  rewrite (IH Hs), orb_false_r. apply Ascii.eqb_neq. intros ->. congruence.
Qed.

Lemma SkipSpace_keeps_absent (sep : ascii) (n : nat) : forall s s',
  (String.length s <= n)%nat ->
  SkipSpace s = Some s' -> Contains s sep = false -> Contains s' sep = false.
Proof.
  induction n as [|n IH]; intros s s' Hlen Hskip Hsep.
  - destruct s; simpl in Hlen; [|lia]. injection Hskip as <-. reflexivity.
  - destruct s as [|c1 r1]; [injection Hskip as <-; reflexivity|].
    cbn [SkipSpace] in Hskip. simpl in Hlen.
    destruct (code c1 =? 10)%nat; [discriminate|].
    simpl in Hsep. apply orb_false_iff in Hsep as [Hc1 Hr1].
    destruct (space1 (code c1)); [apply (IH r1); [lia | assumption..]|].
    destruct r1 as [|c2 r2];
      [injection Hskip as <-; simpl; rewrite Hc1; reflexivity|].
    simpl in Hlen, Hr1. apply orb_false_iff in Hr1 as [Hc2 Hr2].
    destruct (space2 (code c1) (code c2)); [apply (IH r2); [lia | assumption..]|].
    destruct r2 as [|c3 r3];
      [injection Hskip as <-; simpl; rewrite Hc1, Hc2; reflexivity|].
    simpl in Hlen, Hr2. apply orb_false_iff in Hr2 as [Hc3 Hr3].
    destruct (space3 (code c1) (code c2) (code c3));
      [apply (IH r3); [lia | assumption..]|].
    injection Hskip as <-. simpl. rewrite Hc1, Hc2, Hc3, Hr3. reflexivity.
Qed.

Lemma scanNumber_grows (s : string) : forall acc count value digits,
  0 <= acc -> scanNumber acc count s = (value, digits) -> 0 <= value.
Proof.
  induction s as [|c s IH]; intros acc count value digits Hacc Hscan; simpl in Hscan.
  - injection Hscan as <- _. exact Hacc.
  - destruct (isDigit c); [|injection Hscan as <- _; exact Hacc].
    eapply IH; [|exact Hscan]. lia.
Qed.

(** What [parseInt] returns is an [int], and without a minus sign in the
    text it is not negative. *)
Lemma parseInt_bounds (s : string) (value : Z) :
  parseInt s = Some value ->
  minInt <= value <= maxInt /\ (Contains s "-" = false -> 0 <= value).
Proof.
  unfold parseInt, Sscanf_d. intros Hparse.
  destruct (SkipSpace s) as [[|c rest]|] eqn:Hskip; [discriminate | | discriminate].
  destruct (if Ascii.eqb c "-" then (true, rest)
            else if Ascii.eqb c "+" then (false, rest) else (false, String c rest))
    as [negative digits] eqn:Hsign.
  destruct (scanNumber 0 0 digits) as [magnitude count] eqn:Hscan.
  destruct count as [|count]; [discriminate|].
  destruct (Z.leb_spec minInt (if negative then - magnitude else magnitude));
    [|discriminate].
  destruct (Z.leb_spec (if negative then - magnitude else magnitude) maxInt);
    [|discriminate].
  injection Hparse as <-. split; [lia|].
  intros Hdash.
  pose proof (SkipSpace_keeps_absent "-" _ s _ (Nat.le_refl _) Hskip Hdash) as Hrest.
  simpl in Hrest. apply orb_false_iff in Hrest as [Hc _].
  rewrite Hc in Hsign.
  assert (negative = false) as -> by (destruct (Ascii.eqb c "+"); congruence).
  apply (scanNumber_grows _ _ _ _ _ (Z.le_refl 0) Hscan).
Qed.

Lemma Split_pieces (s : string) (sep : ascii) :
  Split s sep <> [] /\ Forall (fun piece => Contains piece sep = false) (Split s sep).
Proof.
  induction s as [|c s [Hne IH]]; simpl.
  - split; [discriminate | repeat constructor].
  - destruct (Ascii.eqb c sep) eqn:Hc.
    + split; [discriminate | constructor; [reflexivity | exact IH]].
    + destruct (Split s sep) as [|piece pieces]; [congruence|].
      split; [discriminate|].
      apply Forall_cons in IH as [Hpiece Hpieces].
      constructor; [simpl; rewrite Hc, Hpiece; reflexivity | exact Hpieces].
Qed.

Lemma parsePart_bounds (part : string) (found : list Z) :
  parsePart part = Some (Ok found) ->
  found <> [] /\ Forall (fun idx => 0 <= idx <= maxInt) found.
Proof.
  unfold parsePart. destruct (Contains part "-") eqn:Hdash.
  - destruct (Split_pieces part "-") as [_ Hpieces].
    destruct (Split part "-") as [|first [|second [|third more]]];
      try discriminate.
    apply Forall_cons in Hpieces as [Hfirst Hpieces].
    apply Forall_cons in Hpieces as [Hsecond _].
    destruct (parseInt first) as [start|] eqn:Hstart; [|discriminate].
    destruct (parseInt second) as [end_|] eqn:Hend; [|discriminate].
    destruct (Z.ltb_spec end_ start); [discriminate|].
    destruct (Z.eqb_spec end_ maxInt); [discriminate|].
    intros [= <-].
    destruct (parseInt_bounds _ _ Hstart) as [_ Hlo].
    destruct (parseInt_bounds _ _ Hend) as [[_ Hhi] _].
    specialize (Hlo Hfirst). split.
    + rewrite seqZ_cons by lia. discriminate.
    + apply Forall_forall. intros idx Hidx. apply elem_of_seqZ in Hidx. lia.
  - destruct (parseInt part) as [page|] eqn:Hpage; [|discriminate].
    intros [= <-]. destruct (parseInt_bounds _ _ Hpage) as [[_ Hhi] Hlo].
    split; [discriminate|]. repeat constructor; [apply Hlo, Hdash | exact Hhi].
Qed.

(** An expression that parses gives at least one index, and every index
    lies between 0 and the largest [int]: no index is negative. *)
Theorem parsed_indices_bounds (pages : string) (size : Z) (found : list Z)
  (Hparse : parsePageRange pages size = Some (Ok found)) :
  found <> [] /\ Forall (fun idx => 0 <= idx <= maxInt) found.
Proof.
  unfold parsePageRange in Hparse.
  apply parseParts_concat in Hparse as (each & Heach & ->). simpl.
  destruct (Split_pieces pages ",") as [Hne _].
  assert (Hall : Forall (fun new => new <> [] /\ Forall (fun idx => 0 <= idx <= maxInt) new) each).
  { clear Hne. induction Heach as [|part new parts each Hpart _ IH]; constructor.
    - apply (parsePart_bounds _ _ Hpart).
    - exact IH. }
  destruct Heach as [|part new parts each Hpart Hrest]; [congruence|].
  apply Forall_cons in Hall as [[Hnew Hbounds] Hall]. split.
  - simpl. destruct new; [congruence | discriminate].
  - simpl. apply Forall_app. split; [exact Hbounds|].
    apply Forall_concat. eapply Forall_impl; [exact Hall|].
    intros l [_ Hl]. exact Hl.
Qed.

(** Scanning the decimal text of any [int] gives the number back. *)
Theorem parseInt_formatInt (n : Z) (Hint : minInt <= n <= maxInt) :
  parseInt (formatInt n) = Some n.
Proof.
  destruct n as [|p|p].
  - reflexivity.
  - apply Sscanf_d_formatInt. lia.
  - unfold parseInt, Sscanf_d.
    change (formatInt (Z.neg p)) with (String "-" (formatInt (Z.pos p))).
    rewrite SkipSpace_plain by (vm_compute; lia). simpl.
    change (pretty p) with (formatInt (Z.pos p)).
    destruct (formatInt_digits (Z.pos p) ltac:(lia)) as (_ & k & ->).
    change (- Z.pos p) with (Z.neg p).
    destruct (Z.leb_spec minInt (Z.neg p)); [|lia].
    destruct (Z.leb_spec (Z.neg p) maxInt); [reflexivity | lia].
Qed.

Lemma range_text_no_comma (a b : Z) :
  0 <= a -> 0 <= b ->
  Split (formatInt a +:+ "-" +:+ formatInt b) "," = [formatInt a +:+ "-" +:+ formatInt b].
Proof.
  intros Ha Hb. apply Split_none.
  destruct (formatInt_digits a Ha) as [Hda _].
  destruct (formatInt_digits b Hb) as [Hdb _].
  rewrite !Contains_app.
  rewrite (allDigits_Contains _ "," eq_refl Hda), (allDigits_Contains _ "," eq_refl Hdb).
  reflexivity.
Qed.

Lemma parsePageRange_range (first last size : Z) :
  0 <= first -> 0 <= last ->
  parsePageRange (formatInt first +:+ "-" +:+ formatInt last) size
  = parsePart (formatInt first +:+ "-" +:+ formatInt last).
Proof.
  intros Hfirst Hlast. unfold parsePageRange.
  rewrite range_text_no_comma by assumption. cbn [parseParts].
  rewrite TrimSpace_between_numbers by assumption.
  destruct (parsePart _) as [[found | err]|]; reflexivity.
Qed.

(** A range whose start lies after its end is refused with a message that
    names both numbers. *)
Theorem reversed_range_refused (first last size : Z)
  (Horder : 0 <= last < first) (Hint : first <= maxInt) :
  parsePageRange (formatInt first +:+ "-" +:+ formatInt last) size
  = Some (Err ("start page (" +:+ formatInt first
               +:+ ") cannot be greater than end page (" +:+ formatInt last +:+ ")")).
Proof.
  rewrite parsePageRange_range by lia.
  destruct (formatInt_digits first ltac:(lia)) as [Hd1 _].
  destruct (formatInt_digits last ltac:(lia)) as [Hd2 _].
  unfold parsePart.
  change ("-" +:+ formatInt last) with (String "-" (formatInt last)).
  rewrite Contains_append, Split_append by (apply allDigits_no_dash, Hd1).
  rewrite Split_none by (apply allDigits_no_dash, Hd2).
  unfold parseInt. rewrite !Sscanf_d_formatInt by lia.
  destruct (Z.ltb_spec last first); [reflexivity | lia].
Qed.

Lemma lookup_range (episodes : list EpisodeInfo.t) (count : nat) : forall first : Z,
  1 <= first -> first + Z.of_nat count - 1 <= Z.of_nat (length episodes) ->
  omap (fun idx => episodes !! Z.to_nat (idx - 1)) (seqZ first (Z.of_nat count))
  = take count (drop (Z.to_nat (first - 1)) episodes).
Proof.
  induction count as [|count IH]; intros first Hlo Hhi.
  - rewrite seqZ_nil by lia. reflexivity.
  - rewrite Nat2Z.inj_succ, seqZ_cons, Z.pred_succ by lia.
    destruct (lookup_lt_is_Some_2 episodes (Z.to_nat (first - 1))) as [episode Hep]; [lia|].
    cbn [omap list_omap]. rewrite Hep, (drop_S _ _ _ Hep). cbn [take]. f_equal.
    rewrite (IH (Z.succ first)) by lia.
    replace (Z.to_nat (Z.succ first - 1)) with (S (Z.to_nat (first - 1))) by lia.
    reflexivity.
Qed.

Lemma filter_all_in_range (episodes : list EpisodeInfo.t) (indices : list Z) :
  Forall (inRange episodes) indices -> filter (inRange episodes) indices = indices.
Proof.
  induction 1 as [|idx indices Hidx _ IH]; [reflexivity|].
  rewrite filter_cons. destruct (decide (inRange episodes idx)); [|contradiction].
  rewrite IH. reflexivity.
Qed.

(** A range that lies within the collection selects the episodes from its
    first page to its last, in order: the slice of the episode list
    between these two positions. *)
Theorem range_selects_slice (videoInfo : VideoInfo.t) (first last : Z)
  (Hrange : 1 <= first <= last)
  (Hlast : last <= Z.of_nat (length (VideoInfo.Episodes videoInfo)))
  (Hint : last < maxInt) :
  episodesToDownload videoInfo (formatInt first +:+ "-" +:+ formatInt last)
  = Some (Ok (take (Z.to_nat (last - first + 1))
                   (drop (Z.to_nat (first - 1)) (VideoInfo.Episodes videoInfo)))).
Proof.
  unfold episodesToDownload.
  destruct (String.eqb_spec (formatInt first +:+ "-" +:+ formatInt last) "all")
    as [Hall | _].
  { exfalso. destruct (formatInt_digits first ltac:(lia)) as [Hd _].
    destruct (formatInt first) as [|c rest]; [discriminate Hall|].
    rewrite append_cons in Hall. injection Hall as -> _.
    simpl in Hd. discriminate Hd. }
  rewrite parsePageRange_range, parsePart_range by lia.
  rewrite select_loop. simpl.
  rewrite filter_all_in_range.
  - replace (last - first + 1) with (Z.of_nat (Z.to_nat (last - first + 1))) at 1 by lia.
    rewrite lookup_range by lia. reflexivity.
  - apply Forall_forall. intros idx Hidx. apply elem_of_seqZ in Hidx.
    unfold inRange. lia.
Qed.

End MoreExpressions.

(** ** More on picking a stream *)

Section MorePicking.

Implicit Types (streams rest : list StreamInfo.t) (first best stream s : StreamInfo.t).

(** The best-quality pick is the first variant of the highest tier: no
    variant has a higher tier and every variant before it has a lower
    one.  There is no pick only for the empty list. *)
Theorem best_pick_is_first_maximum streams :
  match GetBestQualityStream streams with
  | None => streams = []
  | Some s =>
      exists i : nat,
        streams !! i = Some s
        /\ Forall (fun x => StreamInfo.Quality x <= StreamInfo.Quality s) streams
        /\ forall (j : nat) x, (j < i)%nat -> streams !! j = Some x ->
             StreamInfo.Quality x < StreamInfo.Quality s
  end.
Proof.
  destruct streams as [|first rest]; [reflexivity|].
  rewrite GetBestQualityStream_cons.
  assert (Hmax : Forall (fun x => StreamInfo.Quality x
                                  <= StreamInfo.Quality (foldl better first rest))
                        (first :: rest)).
  { apply Forall_forall. intros x Hx. apply foldl_better_max. exact Hx. }
  destruct (foldl_better_position rest first) as [[Hkeep _] | (i & Hi & Hgt & Hbefore)].
  - exists 0%nat. rewrite Hkeep in *. split; [reflexivity|].
    split; [exact Hmax|]. intros j x Hj. lia.
  - exists (S i). split; [exact Hi|]. split; [exact Hmax|].
    intros [|j] x Hj Hx; simpl in Hx.
    + injection Hx as <-. exact Hgt.
    + apply (Hbefore j); [lia | exact Hx].
Qed.

Lemma find_first {A} (p : A -> bool) (l : list A) (a : A) :
  List.find p l = Some a ->
  exists i : nat, l !! i = Some a /\ p a = true
    /\ forall (j : nat) x, (j < i)%nat -> l !! j = Some x -> p x = false.
Proof.
  induction l as [|y l IH]; [discriminate|]. simpl.
  destruct (p y) eqn:Hy.
  - intros [= <-]. exists 0%nat. split; [reflexivity|]. split; [exact Hy|].
    intros j x Hj. lia.
  - intros Hfind. destruct (IH Hfind) as (i & Hi & Hp & Hbefore).
    exists (S i). split; [exact Hi|]. split; [exact Hp|].
    intros [|j] x Hj Hx; simpl in Hx.
    + injection Hx as <-. exact Hy.
    + apply (Hbefore j); [lia | exact Hx].
Qed.

(** For a known label whose tier some variant of the list has, selection
    by label returns the first variant of that tier. *)
Theorem label_picks_first_of_tier streams (label : string) (tier : Z)
  (Hlabel : labelMap !! label = Some tier)
  (Hpresent : Exists (fun s => StreamInfo.Quality s = tier) streams) :
  exists (i : nat) s,
    GetStreamByQuality streams label = Some s
    /\ streams !! i = Some s
    /\ StreamInfo.Quality s = tier
    /\ forall (j : nat) x, (j < i)%nat -> streams !! j = Some x ->
         StreamInfo.Quality x <> tier.
Proof.
  unfold GetStreamByQuality. rewrite Hlabel.
  destruct (List.find _ streams) as [s|] eqn:Hfind.
  - destruct (find_first _ _ _ Hfind) as (i & Hi & Hq & Hbefore).
    exists i, s. split; [reflexivity|]. split; [exact Hi|].
    split; [apply Z.eqb_eq, Hq|].
    intros j x Hj Hx. apply Z.eqb_neq. apply (Hbefore j); assumption.
  - exfalso. apply Exists_exists in Hpresent as (x & Hx & Hq).
    apply list_elem_of_In in Hx.
    pose proof (find_none _ _ Hfind x Hx) as Hno. simpl in Hno.
    apply Z.eqb_neq in Hno. contradiction.
Qed.

End MorePicking.

Lemma label_picks_first_of_tier_witness :
  exists (i : nat) s,
    GetStreamByQuality [Samples.mkStream 80 "u1"; Samples.mkStream 64 "u2";
                        Samples.mkStream 64 "u3"] "720p" = Some s
    /\ [Samples.mkStream 80 "u1"; Samples.mkStream 64 "u2"; Samples.mkStream 64 "u3"] !! i
       = Some s
    /\ StreamInfo.VideoURL s = "u2"%string.
Proof.
  destruct (label_picks_first_of_tier
              [Samples.mkStream 80 "u1"; Samples.mkStream 64 "u2"; Samples.mkStream 64 "u3"]
              "720p" 64 eq_refl)
    as (i & s & Hpick & Hi & _).
  - apply Exists_cons_tl, Exists_cons_hd. reflexivity.
  - exists i, s. split; [exact Hpick|]. split; [exact Hi|].
    assert (Hrun : GetStreamByQuality
                     [Samples.mkStream 80 "u1"; Samples.mkStream 64 "u2";
                      Samples.mkStream 64 "u3"] "720p"
                   = Some (Samples.mkStream 64 "u2")) by reflexivity.
    rewrite Hrun in Hpick. injection Hpick as <-. reflexivity.
Defined.

(** ** More on stream resolution and on single items *)

Section MoreResolution.

Variable api : Platform.

Lemma dashStreams_empty data :
  dashStreams data = [] <-> Forall (fun video => ~ recognised video) (PlayURL.Video data).
Proof.
  rewrite dashStreams_filter. split.
  - intros Hnil. apply fmap_nil_inv in Hnil.
    apply Forall_forall. intros video Hin Hrec.
    assert (Hkept : video ∈ filter recognised (PlayURL.Video data))
      by (apply list_elem_of_filter; auto).
    rewrite Hnil in Hkept. inversion Hkept.
  - intros Hall.
    assert (Hnil : filter recognised (PlayURL.Video data) = []).
    { destruct (filter recognised (PlayURL.Video data)) as [|video kept] eqn:Hkept;
        [reflexivity|].
      assert (Hin : video ∈ filter recognised (PlayURL.Video data))
        by (rewrite Hkept; left).
      apply list_elem_of_filter in Hin as [Hrec Hin].
      rewrite Forall_forall in Hall. destruct (Hall video Hin Hrec). }
    rewrite Hnil. reflexivity.
Qed.

(** Stream resolution succeeds with no variant at all in one case only:
    both answers have status 0, the modern one has no rendition with a
    recognised identifier and the legacy one has no URL entry. *)
Theorem resolves_to_nothing_iff bvid cid :
  getVideoStreamsByCID api bvid cid = Ok []
  <-> exists message data message' legacy,
      playurl api bvid cid = Answer 0 message data
      /\ Forall (fun video => ~ recognised video) (PlayURL.Video data)
      /\ playurlLegacy api bvid cid = Answer 0 message' legacy
      /\ LegacyPlayURL.DURL legacy = [].
Proof.
  split.
  - intros Hok.
    apply getVideoStreamsByCID_inv in Hok
      as [(message & data & _ & _ & Hne)
         | (message & data & message' & legacy & Hreply & Hdash & Hlegacy & Hnil)];
      [congruence|].
    exists message, data, message', legacy.
    split; [exact Hreply|]. split; [apply dashStreams_empty, Hdash|].
    split; [exact Hlegacy|]. symmetry in Hnil. apply fmap_nil_inv in Hnil. exact Hnil.
  - intros (message & data & message' & legacy & Hreply & Hnone & Hlegacy & Hnil).
    apply dashStreams_empty in Hnone.
    unfold getVideoStreamsByCID, getLegacyVideoStreams.
    rewrite Hreply. simpl. rewrite Hnone. simpl. rewrite Hlegacy. simpl.
    rewrite Hnil. reflexivity.
Qed.

(** Every variant built from the modern answer is an "mp4" one paired with
    the first audio rendition of the answer: its URL and its codecs, or
    empty strings when the answer has no audio rendition. *)
Theorem dash_variants_share_first_audio bvid cid message data
  (Hreply : playurl api bvid cid = Answer 0 message data)
  (Hsome : Exists recognised (PlayURL.Video data)) :
  exists streams,
    getVideoStreamsByCID api bvid cid = Ok streams
    /\ Forall (fun s =>
                 StreamInfo.Format s = "mp4"%string
                 /\ StreamInfo.AudioURL s
                    = default EmptyString (DashAudio.BaseURL <$> head (PlayURL.Audio data))
                 /\ StreamInfo.AudioCodecs s
                    = default EmptyString (DashAudio.Codecs <$> head (PlayURL.Audio data)))
              streams.
Proof.
  exists (dashStreams data). split.
  - apply (getVideoStreamsByCID_dash _ _ _ message), dashStreams_nonempty; assumption.
  - rewrite dashStreams_filter. apply Forall_forall. intros s Hs.
    apply list_elem_of_fmap in Hs as (video & -> & _).
    destruct (PlayURL.Audio data); repeat split; reflexivity.
Qed.

(** When the modern answer has status 0 but no rendition with a recognised
    identifier, the result is the legacy one: a legacy answer of status 0
    gives one "flv" variant per URL entry, in order, without audio URL and
    at the answer's quality, and a legacy answer of another status gives
    the error that names this status. *)
Theorem falls_back_to_legacy bvid cid message data
  (Hreply : playurl api bvid cid = Answer 0 message data)
  (Hnone : Forall (fun video => ~ recognised video) (PlayURL.Video data)) :
  getVideoStreamsByCID api bvid cid = getLegacyVideoStreams api bvid cid
  /\ forall code message' legacy,
      playurlLegacy api bvid cid = Answer code message' legacy ->
      if code =? 0 then
        exists streams,
          getVideoStreamsByCID api bvid cid = Ok streams
          /\ StreamInfo.VideoURL <$> streams = DURL.URL <$> LegacyPlayURL.DURL legacy
          /\ Forall (fun s => StreamInfo.Format s = "flv"%string
                              /\ StreamInfo.AudioURL s = EmptyString
                              /\ StreamInfo.Quality s = LegacyPlayURL.Quality legacy)
                    streams
      else getVideoStreamsByCID api bvid cid
           = Err ("failed to get legacy video streams: " +:+ GoStr.formatInt code).
Proof.
  apply dashStreams_empty in Hnone.
  assert (Hfall : getVideoStreamsByCID api bvid cid = getLegacyVideoStreams api bvid cid).
  { unfold getVideoStreamsByCID. rewrite Hreply. simpl. rewrite Hnone. reflexivity. }
  split; [exact Hfall|].
  intros code message' legacy Hlegacy. rewrite Hfall.
  unfold getLegacyVideoStreams. rewrite Hlegacy.
  destruct (Z.eqb_spec code 0) as [-> | Hcode]; simpl; [|reflexivity].
  eexists. split; [reflexivity|]. split.
  - change (map ?f ?l) with (f <$> l). rewrite <- list_fmap_compose. reflexivity.
  - apply Forall_forall. intros s Hs.
    apply list_elem_of_fmap in Hs as (durl & -> & _). repeat split; reflexivity.
Qed.

End MoreResolution.

Section MoreMetadata.

Variable api : Platform.

(** What a successful fetch of a single item looks like, whatever the
    answer was: it is a "playlist" with one episode per page when there is
    more than one page, and else a "video" without episodes; the pages are
    those of the answer and every episode carries the item's BVID. *)
Theorem parsed_item_invariant rawURL videoInfo
  (Hparse : parseVideoURL api rawURL = Ok videoInfo) :
  FindBVID rawURL <> EmptyString
  /\ ((VideoInfo.Type_ videoInfo = "playlist"%string
       /\ (1 < length (VideoInfo.Pages videoInfo))%nat
       /\ length (VideoInfo.Episodes videoInfo) = length (VideoInfo.Pages videoInfo))
      \/ (VideoInfo.Type_ videoInfo = "video"%string
          /\ (length (VideoInfo.Pages videoInfo) <= 1)%nat
          /\ VideoInfo.Episodes videoInfo = []))
  /\ Forall (fun episode => EpisodeInfo.BVID episode = VideoInfo.BVID videoInfo)
            (VideoInfo.Episodes videoInfo).
Proof.
  unfold parseVideoURL in Hparse.
  destruct (String.eqb_spec (FindBVID rawURL) "") as [Hnone | Hbvid]; [discriminate|].
  split; [exact Hbvid|].
  unfold getVideoInfo in Hparse.
  destruct (view api (FindBVID rawURL)) as [err | code message [data | err]];
    [discriminate | | destruct (negb (code =? 0)); discriminate].
  destruct (negb (code =? 0)); [discriminate|].
  destruct (Nat.ltb_spec 1 (length (VideoInfo.Pages (infoOfResponse data))))
    as [Hmany | Hfew]; injection Hparse as <-; simpl in *.
  - split.
    + left. split; [reflexivity|]. split; [exact Hmany | apply length_map].
    + apply Forall_forall. intros episode Hin.
      apply list_elem_of_fmap in Hin as (page & -> & _). reflexivity.
  - split; [|constructor].
    right. split; [reflexivity|]. split; [lia | reflexivity].
Qed.

End MoreMetadata.

(** ** More on the credential store *)

Section MoreCredentials.

Implicit Types (m : gmap string string) (am : Auth.AuthManager).

Lemma setFromSegment_lookup m m' (segment name : string) :
  m !! name = m' !! name ->
  Auth.setFromSegment m segment !! name = Auth.setFromSegment m' segment !! name.
Proof.
  intros Hsame. rewrite !setFromSegment_cut.
  destruct (GoStr.cut (GoStr.TrimSpace segment) "=") as [[key value]|]; [|exact Hsame].
  rewrite !lookup_insert. case_decide; [reflexivity | exact Hsame].
Qed.

Lemma fold_segments_lookup (segments : list string) : forall m m' (name : string),
  m !! name = m' !! name ->
  foldl Auth.setFromSegment m segments !! name
  = foldl Auth.setFromSegment m' segments !! name.
Proof.
  induction segments as [|segment segments IH]; intros m m' name Hsame; simpl.
  - exact Hsame.
  - apply IH, setFromSegment_lookup, Hsame.
Qed.

Lemma setFromSegment_cases (segment : string) :
  (forall m, Auth.setFromSegment m segment = m)
  \/ exists key value : string,
      forall m, Auth.setFromSegment m segment = <[key := value]> m.
Proof.
  destruct (GoStr.cut (GoStr.TrimSpace segment) "=") as [[name value]|] eqn:Hcut.
  - right. exists (GoStr.TrimSpace name), (GoStr.TrimSpace value).
    intros m. rewrite setFromSegment_cut, Hcut. reflexivity.
  - left. intros m. rewrite setFromSegment_cut, Hcut. reflexivity.
Qed.

Lemma fold_segments_idempotent (segments : list string) m :
  foldl Auth.setFromSegment (foldl Auth.setFromSegment m segments) segments
  = foldl Auth.setFromSegment m segments.
Proof.
  induction segments as [|segment segments IH] using rev_ind; [reflexivity|].
  rewrite !foldl_snoc.
  destruct (setFromSegment_cases segment) as [Hid | (key & value & Hset)].
  - rewrite !Hid. exact IH.
  - rewrite !Hset. apply map_eq. intros name.
    rewrite !lookup_insert. case_decide; [reflexivity|].
    rewrite <- IH at 2. apply fold_segments_lookup.
    rewrite lookup_insert_ne by assumption. reflexivity.
Qed.

(** Setting the cookies from the same string a second time changes
    nothing. *)
Theorem cookie_string_idempotent am (cookieStr : string) :
  fst (Auth.SetCookiesFromString (fst (Auth.SetCookiesFromString am cookieStr)) cookieStr)
  = fst (Auth.SetCookiesFromString am cookieStr).
Proof.
  unfold Auth.SetCookiesFromString, Auth.withCookies. simpl.
  rewrite fold_segments_idempotent. reflexivity.
Qed.

Lemma setFromSegment_keeps m (segment name : string) :
  is_Some (m !! name) -> is_Some (Auth.setFromSegment m segment !! name).
Proof.
  intros Hsome. rewrite setFromSegment_cut.
  destruct (GoStr.cut (GoStr.TrimSpace segment) "=") as [[key value]|]; [|exact Hsome].
  rewrite lookup_insert. case_decide; [eexists; reflexivity | exact Hsome].
Qed.

Lemma fold_segments_keeps (segments : list string) : forall m (name : string),
  is_Some (m !! name) -> is_Some (foldl Auth.setFromSegment m segments !! name).
Proof.
  induction segments as [|segment segments IH]; intros m name Hsome; simpl.
  - exact Hsome.
  - apply IH, setFromSegment_keeps, Hsome.
Qed.

(** Setting the cookies from a string removes no cookie: every name that
    had a value still has one. *)
Theorem cookie_string_removes_nothing am (cookieStr : string) :
  dom (Auth.cookies am)
  ⊆ dom (Auth.cookies (fst (Auth.SetCookiesFromString am cookieStr))).
Proof.
  intros name Hin. apply elem_of_dom in Hin. apply elem_of_dom.
  simpl. apply fold_segments_keeps, Hin.
Qed.

Lemma fold_segments_frame (segments : list string) : forall m (name : string),
  Forall (fun segment => Auth.segmentName segment <> Some name) segments ->
  foldl Auth.setFromSegment m segments !! name = m !! name.
Proof.
  induction segments as [|segment segments IH]; intros m name Hnot; simpl.
  - reflexivity.
  - apply Forall_cons in Hnot as [Hsegment Hnot].
    rewrite (IH _ _ Hnot), setFromSegment_cut. unfold Auth.segmentName in Hsegment.
    destruct (GoStr.cut (GoStr.TrimSpace segment) "=") as [[key value]|]; [|reflexivity].
    apply lookup_insert_ne. congruence.
Qed.

(** A cookie whose name no segment of the string sets keeps its value. *)
Theorem cookie_string_frame am (cookieStr name : string)
  (Hnot : Forall (fun segment => Auth.segmentName segment <> Some name)
                 (GoStr.Split cookieStr ";")) :
  Auth.GetCookie (fst (Auth.SetCookiesFromString am cookieStr)) name
  = Auth.GetCookie am name.
Proof.
  unfold Auth.GetCookie. simpl. rewrite (fold_segments_frame _ _ _ Hnot). reflexivity.
Qed.

Lemma GetCookie_nonempty am (name : string) :
  negb (String.eqb (Auth.GetCookie am name) EmptyString) = true
  <-> exists value, Auth.cookies am !! name = Some value /\ value <> EmptyString.
Proof.
  unfold Auth.GetCookie. rewrite negb_true_iff. split.
  - intros Hne. destruct (Auth.cookies am !! name) as [value|]; simpl in Hne.
    + exists value. split; [reflexivity|]. intros ->. discriminate.
    + discriminate.
  - intros (value & -> & Hne). simpl. apply String.eqb_neq. exact Hne.
Qed.

(** A manager is authenticated exactly when both SESSDATA and bili_jct
    have a value that is not empty; a missing cookie counts as an empty
    one, and a manager whose cookies were cleared is not authenticated. *)
Theorem authenticated_iff am :
  (Auth.IsAuthenticated am = true
   <-> (exists value, Auth.cookies am !! "SESSDATA"%string = Some value
                      /\ value <> EmptyString)
       /\ (exists value, Auth.cookies am !! "bili_jct"%string = Some value
                         /\ value <> EmptyString))
  /\ Auth.IsAuthenticated (Auth.ClearCookies am) = false.
Proof.
  split; [|reflexivity].
  unfold Auth.IsAuthenticated. simpl. rewrite andb_true_r, andb_true_iff.
  rewrite !GetCookie_nonempty. reflexivity.
Qed.

(** Reading a cookie after setting it gives the value set, the other
    cookies are as before, and a name without a cookie reads as the empty
    string. *)
Theorem set_then_get am (name other value : string) :
  Auth.GetCookie (Auth.SetCookie am name value) name = value
  /\ (other <> name ->
      Auth.GetCookie (Auth.SetCookie am name value) other = Auth.GetCookie am other)
  /\ (Auth.cookies am !! other = None -> Auth.GetCookie am other = EmptyString)
  /\ Auth.GetCookie (Auth.ClearCookies am) other = EmptyString.
Proof.
  unfold Auth.GetCookie, Auth.SetCookie, Auth.ClearCookies. simpl.
  split; [rewrite lookup_insert_eq; reflexivity|].
  split; [intros Hne; rewrite lookup_insert_ne by congruence; reflexivity|].
  split; [intros ->; reflexivity|].
  rewrite lookup_empty. reflexivity.
Qed.

End MoreCredentials.

Lemma cookie_string_frame_witness :
  Forall (fun segment => Auth.segmentName segment <> Some "sid"%string)
         (GoStr.Split "a=1; b=2 ; c" ";")
  /\ Auth.GetCookie
       (fst (Auth.SetCookiesFromString
               (Auth.SetCookie (Auth.NewAuthManager "d") "sid" "s1") "a=1; b=2 ; c"))
       "sid" = "s1"%string.
Proof.
  assert (Hnot : Forall (fun segment => Auth.segmentName segment <> Some "sid"%string)
                        (GoStr.Split "a=1; b=2 ; c" ";"))
    by (vm_compute; repeat constructor; discriminate).
  split; [exact Hnot|].
  rewrite (cookie_string_frame _ _ _ Hnot). reflexivity.
Defined.

(** ** Cookie files and the QR code login *)

Section CookieFile.

Import Login.

Implicit Types (am : Auth.AuthManager).

Lemma isEssential_elem (name : string) :
  isEssential name = true <-> name ∈ essentialCookies.
Proof.
  unfold isEssential. rewrite existsb_exists. split.
  - intros (x & Hin & Heq). apply String.eqb_eq in Heq as ->.
    apply list_elem_of_In, Hin.
  - intros Hin. exists name. split; [apply list_elem_of_In, Hin | apply String.eqb_refl].
Qed.

Lemma importLine_cases am (count : nat) (line : string) :
  importLine (am, count) line = (am, count)
  \/ exists name value : string,
      name ∈ essentialCookies
      /\ importLine (am, count) line = (Auth.SetCookie am name value, S count).
Proof.
  unfold importLine.
  destruct (String.eqb (GoStr.TrimSpace line) "" || GoStr.HasPrefix (GoStr.TrimSpace line) "#");
    [left; reflexivity|].
  destruct (GoStr.Split (GoStr.TrimSpace line) GoStr.tab) as [|first [|second more]];
    [left; reflexivity | left; reflexivity |].
  destruct (isEssential (GoStr.TrimSpace first)) eqn:Hessential; [|left; reflexivity].
  right. exists (GoStr.TrimSpace first), (GoStr.TrimSpace second).
  split; [apply isEssential_elem, Hessential | reflexivity].
Qed.

Lemma imported_start am : imported am (am, O).
Proof.
  unfold imported. simpl. repeat split; [reflexivity | congruence].
Qed.

Lemma imported_step am (state : Auth.AuthManager * nat) (line : string) :
  imported am state -> imported am (importLine state line).
Proof.
  destruct state as [am1 count]. intros (Hframe & Hdom & Hzero & Hsome).
  destruct (importLine_cases am1 count line) as [-> | (name & value & Hname & ->)];
    [repeat split; assumption|].
  unfold imported. simpl in *. split; [|split; [|split]].
  - intros other Hother. rewrite lookup_insert_ne; [apply Hframe, Hother|].
    intros <-. contradiction.
  - intros key Hkey. apply Hdom in Hkey. apply elem_of_dom in Hkey.
    apply elem_of_dom. rewrite lookup_insert. case_decide; [eexists; reflexivity | exact Hkey].
  - discriminate.
  - intros _. exists name. split; [exact Hname|].
    rewrite lookup_insert_eq. eexists; reflexivity.
Qed.

Lemma imported_fold am (lines : list string) : forall state,
  imported am state -> imported am (foldl importLine state lines).
Proof.
  induction lines as [|line lines IH]; intros state Hstate; simpl; [exact Hstate|].
  apply IH, imported_step, Hstate.
Qed.

Lemma loadCookiesFromFile_imported am (content filePath : string) :
  exists state,
    imported am state
    /\ loadCookiesFromFile am (Content content) filePath
       = (fst state, match snd state with
                     | O => Some "no valid cookies found in file"%string
                     | S _ => None
                     end).
Proof.
  exists (foldl importLine (am, O) (GoStr.Split content GoStr.newline)).
  split; [apply imported_fold, imported_start|].
  unfold loadCookiesFromFile.
  destruct (foldl importLine (am, O) (GoStr.Split content GoStr.newline)) as [am' [|count]];
    reflexivity.
Qed.

(** Importing a cookie file touches only the seven names of the allow
    list and removes nothing: every other cookie reads as before and every
    name that had a value still has one, whatever the file holds. *)
Theorem cookie_file_allow_list am (found : file) (filePath name : string)
  (Hother : name ∉ essentialCookies) :
  Auth.GetCookie (fst (loadCookiesFromFile am found filePath)) name
  = Auth.GetCookie am name
  /\ dom (Auth.cookies am)
     ⊆ dom (Auth.cookies (fst (loadCookiesFromFile am found filePath))).
Proof.
  destruct found as [|err|content]; [split; reflexivity | split; reflexivity|].
  destruct (loadCookiesFromFile_imported am content filePath)
    as (state & (Hframe & Hdom & _) & ->). simpl.
  split; [|exact Hdom]. unfold Auth.GetCookie. rewrite (Hframe name Hother). reflexivity.
Qed.

Lemma cookieOfLine_essential (line name value : string) :
  cookieOfLine line = Some (name, value) -> name ∈ essentialCookies.
Proof.
  unfold cookieOfLine.
  destruct (String.eqb (GoStr.TrimSpace line) "" || GoStr.HasPrefix (GoStr.TrimSpace line) "#");
    [discriminate|].
  destruct (GoStr.Split (GoStr.TrimSpace line) GoStr.tab) as [|first [|second more]];
    [discriminate | discriminate |].
  destruct (isEssential (GoStr.TrimSpace first)) eqn:Hessential; [|discriminate].
  intros [= <- _]. apply isEssential_elem, Hessential.
Qed.

Lemma importLine_cookieOfLine am (m : gmap string string) (count : nat) (line : string) :
  importLine (Auth.withCookies am m, count) line
  = match cookieOfLine line with
    | Some entry => (Auth.withCookies am (<[entry.1 := entry.2]> m), S count)
    | None => (Auth.withCookies am m, count)
    end.
Proof.
  unfold importLine, cookieOfLine.
  destruct (String.eqb (GoStr.TrimSpace line) "" || GoStr.HasPrefix (GoStr.TrimSpace line) "#");
    [reflexivity|].
  destruct (GoStr.Split (GoStr.TrimSpace line) GoStr.tab) as [|first [|second more]];
    [reflexivity | reflexivity |].
  destruct (isEssential (GoStr.TrimSpace first)); reflexivity.
Qed.

Lemma foldl_importLine am (lines : list string) : forall (m : gmap string string) (count : nat),
  foldl importLine (Auth.withCookies am m, count) lines
  = (Auth.withCookies am
       (foldl (fun m entry => <[entry.1 := entry.2]> m) m (omap cookieOfLine lines)),
     (count + length (omap cookieOfLine lines))%nat).
Proof.
  induction lines as [|line lines IH]; intros m count; cbn [foldl omap list_omap].
  - rewrite Nat.add_0_r. reflexivity.
  - rewrite importLine_cookieOfLine.
    destruct (cookieOfLine line) as [entry|]; rewrite IH; [|reflexivity].
    cbn [foldl length]. rewrite Nat.add_succ_r. reflexivity.
Qed.

Lemma foldl_importLine_start am (lines : list string) :
  foldl importLine (am, O) lines
  = (Auth.withCookies am
       (foldl (fun m entry => <[entry.1 := entry.2]> m) (Auth.cookies am)
              (omap cookieOfLine lines)),
     length (omap cookieOfLine lines)).
Proof.
  destruct am as [cookies userAgent configDir].
  exact (foldl_importLine (Auth.Build_AuthManager cookies userAgent configDir)
                          lines cookies O).
Qed.

Lemma foldl_insert_lookup (entries : list (string * string)) (name : string) :
  forall m : gmap string string,
  foldl (fun m entry => <[entry.1 := entry.2]> m) m entries !! name
  = match last (filter (fun entry => entry.1 = name) entries) with
    | Some entry => Some entry.2
    | None => m !! name
    end.
Proof.
  induction entries as [|entry entries IH]; intros m; [reflexivity|].
  cbn [foldl]. rewrite IH, filter_cons.
  destruct (decide (entry.1 = name)) as [Heq | Hne].
  - rewrite last_cons.
    destruct (last (filter _ entries)); [reflexivity|].
    rewrite Heq. apply lookup_insert_eq.
  - destruct (last (filter _ entries)); [reflexivity|].
    apply lookup_insert_ne, Hne.
Qed.

(** What importing a cookie file returns and leaves in the manager.  A
    missing file and an unreadable file give their error and leave the
    manager as it was.  For a file that was read, take the cookies its
    lines set, in the order of the lines; their names are in the allow
    list.  When there is none, the import gives the error "no valid
    cookies found in file" and leaves the manager as it was, and only
    then: when there is one, the import gives no error, whether or not a
    value changes, and afterwards every name reads the value of the last
    line that sets it, and as before when no line sets it. *)
Theorem cookie_file_error_or_import am (found : file) (filePath : string) :
  match found with
  | Missing =>
      loadCookiesFromFile am found filePath
      = (am, Some ("cookie file does not exist: " +:+ filePath)%string)
  | Unreadable cause =>
      loadCookiesFromFile am found filePath
      = (am, Some ("failed to read cookie file: " +:+ cause)%string)
  | Content content =>
      let entries := omap cookieOfLine (GoStr.Split content GoStr.newline) in
      Forall (fun entry => entry.1 ∈ essentialCookies) entries
      /\ match entries with
         | [] =>
             loadCookiesFromFile am found filePath
             = (am, Some "no valid cookies found in file"%string)
         | _ :: _ =>
             exists am',
               loadCookiesFromFile am found filePath = (am', None)
               /\ Auth.userAgent am' = Auth.userAgent am
               /\ Auth.configDir am' = Auth.configDir am
               /\ forall name : string,
                   Auth.cookies am' !! name
                   = match last (filter (fun entry => entry.1 = name) entries) with
                     | Some entry => Some entry.2
                     | None => Auth.cookies am !! name
                     end
         end
  end.
Proof.
  destruct found as [|cause|content]; [reflexivity | reflexivity|].
  cbn zeta. split.
  { apply Forall_forall. intros [name value] Hin.
    apply list_elem_of_omap in Hin as (line & _ & Hline).
    exact (cookieOfLine_essential _ _ _ Hline). }
  unfold loadCookiesFromFile. rewrite foldl_importLine_start.
  destruct (omap cookieOfLine (GoStr.Split content GoStr.newline)) as [|entry entries].
  - destruct am; reflexivity.
  - cbn [length]. eexists. split; [reflexivity|].
    split; [reflexivity|]. split; [reflexivity|].
    intros name. cbn [Auth.cookies Auth.withCookies]. apply foldl_insert_lookup.
Qed.

End CookieFile.

Section Passport.

Import Login.

Variable parseQuery : string -> result (string -> string).
Variable generate : Parser.reply QRData.t.
Variable poll : string -> nat -> result QRCodeStatus.t.

Implicit Types (am : Auth.AuthManager).

Lemma fold_params_lookup (get : string -> string) (names : list string) :
  forall (m : gmap string string) (name : string),
    foldl (setFromParam get) m names !! name
    = if decide (name ∈ names /\ get name <> EmptyString)
      then Some (get name) else m !! name.
Proof.
  induction names as [|n names IH]; intros m name.
  - destruct (decide (name ∈ [] /\ get name <> EmptyString)) as [[H _] | _];
      [inversion H | reflexivity].
  - cbn [foldl]. rewrite IH. unfold setFromParam.
    destruct (decide (name ∈ names /\ get name <> EmptyString)) as [[Hin Hget] | Hnot].
    + rewrite decide_True; [reflexivity | split; [right; exact Hin | exact Hget]].
    + destruct (decide (name ∈ n :: names /\ get name <> EmptyString))
        as [[Hin Hget] | Hout].
      * apply elem_of_cons in Hin as [-> | Hin]; [|destruct Hnot; split; assumption].
        destruct (String.eqb_spec (get n) "") as [Hempty | _]; [contradiction|].
        apply lookup_insert_eq.
      * destruct (String.eqb_spec (get n) "") as [Hempty | Hvalue]; [reflexivity|].
        apply lookup_insert_ne. intros <-. apply Hout. split; [left | exact Hvalue].
Qed.

(** From a redirect URL that parses, each of the five names takes the
    value of its query parameter when that is not empty; every other
    cookie, and a name whose parameter is empty or absent, reads as
    before, and the error is nil. *)
Theorem redirect_cookies am (redirectURL : string) (get : string -> string)
  (Hquery : parseQuery redirectURL = Ok get) (name : string) :
  snd (parseCookiesFromURL parseQuery am redirectURL) = None
  /\ Auth.GetCookie (fst (parseCookiesFromURL parseQuery am redirectURL)) name
     = if decide (name ∈ cookieNames /\ get name <> EmptyString)
       then get name else Auth.GetCookie am name.
Proof.
  unfold parseCookiesFromURL. rewrite Hquery. split; [reflexivity|].
  unfold Auth.GetCookie, Auth.withCookies. cbn [fst Auth.cookies].
  rewrite fold_params_lookup.
  destruct (decide (name ∈ cookieNames /\ get name <> EmptyString)); reflexivity.
Qed.

Lemma pollLoop_waiting (fuel : nat) am (key : string) (n : nat) :
  waiting (poll key n) ->
  pollLoop parseQuery poll (S fuel) am key n = pollLoop parseQuery poll fuel am key (S n).
Proof.
  intros (status & Hpoll & Hcode). cbn [pollLoop]. rewrite Hpoll. cbv zeta.
  destruct Hcode as [-> | ->]; reflexivity.
Qed.

Lemma pollLoop_decided (fuel : nat) am (key : string) (n : nat) :
  ~ waiting (poll key n) ->
  pollLoop parseQuery poll (S fuel) am key n = pollLoop parseQuery poll 1 am key n
  /\ pollLoop parseQuery poll 1 am key n <> None.
Proof.
  intros Hdecided. cbn [pollLoop].
  destruct (poll key n) as [status | err] eqn:Hpoll; [|split; [reflexivity | discriminate]].
  cbv zeta.
  destruct (Z.eqb_spec (QRCodeStatus.DataCode status) 0);
    [destruct (parseCookiesFromURL parseQuery am (QRCodeStatus.DataURL status)) as [am' [err|]];
     split; (reflexivity || discriminate)|].
  destruct (Z.eqb_spec (QRCodeStatus.DataCode status) 86101) as [Hcode | _];
    [destruct Hdecided; exists status; auto|].
  destruct (Z.eqb_spec (QRCodeStatus.DataCode status) 86090) as [Hcode | _];
    [destruct Hdecided; exists status; auto|].
  destruct (QRCodeStatus.DataCode status =? 86038); split; (reflexivity || discriminate).
Qed.

(** The poll loop sleeps through the answers "not scanned" and "scanned,
    not confirmed" and ends on the first other answer: with [k] such
    answers before it, any bound above [k] polls gives the outcome of that
    answer alone, and a bound of [k] polls or fewer finds the loop still
    waiting. *)
Theorem poll_ends_on_first_decided am (key : string) (k fuel : nat)
  (Hwait : forall j : nat, (j < k)%nat -> waiting (poll key j))
  (Hdecided : ~ waiting (poll key k)) :
  ((k < fuel)%nat ->
   pollLoop parseQuery poll fuel am key 0 = pollLoop parseQuery poll 1 am key k
   /\ pollLoop parseQuery poll 1 am key k <> None)
  /\ ((fuel <= k)%nat -> pollLoop parseQuery poll fuel am key 0 = None).
Proof.
  assert (Hgen : forall (n fuel' : nat),
             (n <= k)%nat ->
             ((k - n < fuel')%nat ->
              pollLoop parseQuery poll fuel' am key n = pollLoop parseQuery poll 1 am key k)
             /\ ((fuel' <= k - n)%nat -> pollLoop parseQuery poll fuel' am key n = None)).
  { intros n fuel'. revert n. induction fuel' as [|fuel' IH]; intros n Hn.
    - split; [lia | reflexivity].
    - destruct (decide (n = k)) as [-> | Hne].
      + split; [intros _; apply pollLoop_decided, Hdecided | lia].
      + rewrite pollLoop_waiting by (apply Hwait; lia).
        destruct (IH (S n) ltac:(lia)) as [Hrun Hout].
        split; intros Hfuel; [apply Hrun | apply Hout]; lia. }
  destruct (Hgen 0%nat fuel ltac:(lia)) as [Hrun Hout].
  split.
  - intros Hfuel. split; [apply Hrun; lia | apply (pollLoop_decided 0), Hdecided].
  - intros Hfuel. apply Hout. lia.
Qed.

(** The login leaves the cookies alone unless it succeeds: an outcome
    with an error carries the manager unchanged, and an outcome without
    error comes from a poll answer of code 0 whose redirect URL parsed. *)
Theorem login_keeps_cookies_on_error (fuel : nat) am am' (key : string) (n : nat)
  (outcome : option string)
  (Hrun : pollLoop parseQuery poll fuel am key n = Some (am', outcome)) :
  match outcome with
  | Some _ => am' = am
  | None =>
      exists (j : nat) status get,
        poll key j = Ok status
        /\ QRCodeStatus.DataCode status = 0
        /\ parseQuery (QRCodeStatus.DataURL status) = Ok get
        /\ am' = fst (parseCookiesFromURL parseQuery am (QRCodeStatus.DataURL status))
  end.
Proof.
  revert n Hrun. induction fuel as [|fuel IH]; intros n Hrun; [discriminate|].
  cbn [pollLoop] in Hrun.
  destruct (poll key n) as [status | err] eqn:Hpoll;
    [|injection Hrun as <- <-; reflexivity].
  cbv zeta in Hrun.
  destruct (Z.eqb_spec (QRCodeStatus.DataCode status) 0) as [Hzero | _].
  - unfold parseCookiesFromURL in Hrun.
    destruct (parseQuery (QRCodeStatus.DataURL status)) as [get | err] eqn:Hquery;
      simpl in Hrun; injection Hrun as <- <-; [|reflexivity].
    exists n, status, get. split; [exact Hpoll|]. split; [exact Hzero|].
    split; [exact Hquery|]. unfold parseCookiesFromURL. rewrite Hquery. reflexivity.
  - destruct (QRCodeStatus.DataCode status =? 86101); [apply (IH _ Hrun)|].
    destruct (QRCodeStatus.DataCode status =? 86090); [apply (IH _ Hrun)|].
    destruct (QRCodeStatus.DataCode status =? 86038);
      injection Hrun as <- <-; reflexivity.
Qed.

End Passport.

(** ** Seasons and the whole download *)

Section Seasons.

Import Cmd.

Variable api : Platform.
Variable season : string -> reply (result PlaylistData.t).
Variable urlPath : string -> result string.
Variable DownloadVideo : VideoInfo.t -> list StreamInfo.t -> result unit.

Lemma copy_episodes (episodes : list EpisodeInfo.t) :
  map (fun ep =>
         {| EpisodeInfo.BVID := EpisodeInfo.BVID ep;
            EpisodeInfo.CID := EpisodeInfo.CID ep;
            EpisodeInfo.Title := EpisodeInfo.Title ep;
            EpisodeInfo.Duration := EpisodeInfo.Duration ep;
            EpisodeInfo.Index := EpisodeInfo.Index ep |}) episodes
  = episodes.
Proof.
  induction episodes as [|[bvid cid title duration index] episodes IH];
    [reflexivity|].
  simpl. rewrite IH. reflexivity.
Qed.

Lemma parsePlaylistURL_inv (rawURL : string) (videoInfo : VideoInfo.t) :
  parsePlaylistURL season rawURL = Ok videoInfo ->
  exists seasonID message data,
    FindSeasonID rawURL = Some seasonID
    /\ season seasonID = Answer 0 message (Ok data)
    /\ VideoInfo.Type_ videoInfo = "playlist"%string
    /\ VideoInfo.Title videoInfo = PlaylistData.Title data
    /\ VideoInfo.Episodes videoInfo = PlaylistData.Episodes data
    /\ VideoInfo.Pages videoInfo = [].
Proof.
  unfold parsePlaylistURL, getPlaylistInfo.
  destruct (FindSeasonID rawURL) as [seasonID|]; [|discriminate].
  destruct (season seasonID) as [err | code message [data | err]] eqn:Hseason;
    [discriminate | | destruct (negb (code =? 0)); discriminate].
  destruct (Z.eqb_spec code 0) as [-> | Hcode]; simpl; [|discriminate].
  intros [= <-]. exists seasonID, message, data. simpl.
  rewrite copy_episodes. repeat split; reflexivity || assumption.
Qed.

(** A season URL whose answer has status 0 gives a "playlist" with the
    title and the episodes of the answer, in order, and with no page. *)
Theorem season_playlist (rawURL seasonID message : string) (data : PlaylistData.t)
  (Hid : FindSeasonID rawURL = Some seasonID)
  (Hseason : season seasonID = Answer 0 message (Ok data)) :
  exists videoInfo,
    parsePlaylistURL season rawURL = Ok videoInfo
    /\ VideoInfo.Type_ videoInfo = "playlist"%string
    /\ VideoInfo.Title videoInfo = PlaylistData.Title data
    /\ VideoInfo.Episodes videoInfo = PlaylistData.Episodes data
    /\ VideoInfo.Pages videoInfo = [].
Proof.
  unfold parsePlaylistURL, getPlaylistInfo. rewrite Hid, Hseason. simpl.
  eexists. split; [reflexivity|]. simpl. rewrite copy_episodes.
  repeat split; reflexivity.
Qed.

(** The episodes of a season are never resolved: the item has no page, so
    for every selected episode the download loop records "no pages found
    for video" without a request to the playback endpoint, and the
    command still ends without error. *)
Theorem season_episodes_get_no_streams (rawURL pages : string) (videoInfo : VideoInfo.t)
  (Hparse : parsePlaylistURL season rawURL = Ok videoInfo) :
  downloadPlaylist api DownloadVideo videoInfo pages
  = match episodesToDownload videoInfo pages with
    | None => None
    | Some (Err err) => Some (Err err)
    | Some (Ok selected) =>
        Some (Ok (map (fun episode => NoStreams episode "no pages found for video")
                      selected))
    end.
Proof.
  apply parsePlaylistURL_inv in Hparse
    as (seasonID & message & data & _ & _ & _ & _ & _ & Hpages).
  unfold downloadPlaylist.
  destruct (episodesToDownload videoInfo pages) as [[selected | err]|]; try reflexivity.
  do 2 f_equal. apply map_ext. intros episode.
  unfold downloadEpisode, GetVideoStreamsForPage. simpl. rewrite Hpages. reflexivity.
Qed.

End Seasons.

Section WholeDownload.

Import Cmd.

Variable api : Platform.
Variable season : string -> reply (result PlaylistData.t).
Variable urlPath : string -> result string.
Variable DownloadVideo : VideoInfo.t -> list StreamInfo.t -> result unit.

(** In a multi-part item whose answer numbers its pages 1, 2, ... in
    order, each episode is downloaded with the streams of its own page:
    the attempt for the episode made from a page is the outcome of the
    stream resolution for that page's content id. *)
Theorem episode_uses_own_page (rawURL message : string) (data : VideoAPIResponse.t)
  (i : nat) (page : PageInfo.t)
  (Hbvid : FindBVID rawURL <> EmptyString)
  (Hview : view api (FindBVID rawURL) = Answer 0 message (Ok data))
  (Hmany : (1 < length (VideoAPIResponse.Pages data))%nat)
  (Hpage : VideoAPIResponse.Pages data !! i = Some page)
  (Hnumber : PageInfo.Page page = Z.of_nat i + 1) :
  exists videoInfo episode,
    parseVideoURL api rawURL = Ok videoInfo
    /\ VideoInfo.Episodes videoInfo !! i = Some episode
    /\ EpisodeInfo.CID episode = PageInfo.CID page
    /\ match downloadEpisode api DownloadVideo videoInfo episode with
       | NoStreams episode' err =>
           episode' = episode
           /\ getVideoStreamsByCID api (VideoAPIResponse.BVID data) (PageInfo.CID page)
              = Err err
       | Tried episode' streams _ =>
           episode' = episode
           /\ getVideoStreamsByCID api (VideoAPIResponse.BVID data) (PageInfo.CID page)
              = Ok streams
       end.
Proof.
  eexists. exists (episodeOfPage (infoOfResponse data) page).
  split; [apply (parseVideoURL_multi _ _ _ _ Hbvid Hview Hmany)|].
  split; [simpl; change (map ?f ?l) with (f <$> l);
          rewrite list_lookup_fmap, Hpage; reflexivity|].
  split; [reflexivity|].
  assert (Hlen : (i < length (VideoAPIResponse.Pages data))%nat)
    by (eapply lookup_lt_Some, Hpage).
  unfold downloadEpisode, GetVideoStreamsForPage. simpl.
  destruct (VideoAPIResponse.Pages data) as [|first rest] eqn:Hpages;
    [simpl in Hlen; lia|].
  rewrite Hnumber.
  destruct (Z.ltb_spec 0 (Z.of_nat i + 1)); [|lia].
  destruct (Z.leb_spec (Z.of_nat i + 1) (Z.of_nat (length (first :: rest)))); [|lia].
  simpl andb. cbv iota.
  replace (Z.to_nat (Z.of_nat i + 1 - 1)) with i by lia.
  rewrite Hpage.
  destruct (getVideoStreamsByCID api (VideoAPIResponse.BVID data) (PageInfo.CID page));
    split; reflexivity.
Qed.

(** Without a value for SESSDATA or for bili_jct the download command
    stops with "authentication required", whatever the URL, the pages
    expression and the platform. *)
Theorem download_requires_login (am : Auth.AuthManager) (url pages : string)
  (Hmissing : Auth.GetCookie am "SESSDATA" = EmptyString
              \/ Auth.GetCookie am "bili_jct" = EmptyString) :
  runDownload api season urlPath DownloadVideo None am url pages
  = Some (Err "authentication required").
Proof.
  unfold runDownload.
  assert (Hauth : Auth.IsAuthenticated am = false).
  { unfold Auth.IsAuthenticated. simpl.
    destruct Hmissing as [-> | ->]; [reflexivity | apply andb_false_r]. }
  rewrite Hauth. reflexivity.
Qed.

(** For a video of one page the pages expression is not read: whatever it
    is, the command resolves the streams of that page and hands them to
    the downloader, and its error is the one of the stream resolution or
    of the downloader. *)
Theorem single_page_ignores_expression (am : Auth.AuthManager)
  (url path message pages : string) (data : VideoAPIResponse.t) (page : PageInfo.t)
  (Hauth : Auth.IsAuthenticated am = true)
  (Hpath : urlPath url = Ok path)
  (Hvideo : GoStr.ContainsString path "/video/" = true)
  (Hbvid : FindBVID url <> EmptyString)
  (Hview : view api (FindBVID url) = Answer 0 message (Ok data))
  (Hone : VideoAPIResponse.Pages data = [page]) :
  let videoInfo := setType (infoOfResponse data) "video" [] in
  runDownload api season urlPath DownloadVideo None am url pages
  = match getVideoStreamsByCID api (VideoAPIResponse.BVID data) (PageInfo.CID page) with
    | Err err => Some (Err ("failed to get video streams: " +:+ err))
    | Ok streams =>
        match DownloadVideo videoInfo streams with
        | Err err => Some (Err err)
        | Ok _ => Some (Ok (VideoReport videoInfo streams))
        end
    end.
Proof.
  intros videoInfo. unfold runDownload, ParseURL. rewrite Hauth, Hpath, Hvideo. simpl.
  assert (Hparse : parseVideoURL api url = Ok videoInfo).
  { unfold parseVideoURL.
    destruct (String.eqb_spec (FindBVID url) "") as [Heq | _]; [contradiction|].
    rewrite (getVideoInfo_ok _ _ _ _ Hview). simpl. rewrite Hone. reflexivity. }
  rewrite Hparse. simpl.
  unfold downloadSingleVideo, GetVideoStreams, GetVideoStreamsForPage. simpl.
  rewrite Hone. reflexivity.
Qed.

End WholeDownload.

(** ** The identifier of a video *)

Section Identifier.

Lemma takeAlnum_split (s : string) :
  exists post,
    s = takeAlnum s +:+ post
    /\ forallb isAlnum (list_ascii_of_string (takeAlnum s)) = true
    /\ match post with
       | EmptyString => True
       | String c _ => isAlnum c = false
       end.
Proof.
  induction s as [|c s (post & Hsplit & Hall & Hpost)]; simpl.
  - exists EmptyString. repeat split.
  - destruct (isAlnum c) eqn:Hc.
    + exists post. rewrite append_cons, <- Hsplit. simpl. rewrite Hc, Hall.
      repeat split. exact Hpost.
    + exists (String c s). repeat split. exact Hc.
Qed.

Lemma takeAlnum_empty (s : string) :
  takeAlnum s = EmptyString
  <-> match s with
      | EmptyString => True
      | String c _ => isAlnum c = false
      end.
Proof.
  destruct s as [|c s]; simpl; [tauto|].
  destruct (isAlnum c); split; (discriminate || reflexivity).
Qed.

Lemma no_match_in_short (c1 : ascii) (before rest : string) :
  String c1 EmptyString <> before +:+ "BV" +:+ rest.
Proof.
  destruct before as [|c before]; rewrite !append_cons; [discriminate|].
  destruct before as [|c' before]; rewrite ?append_cons; discriminate.
Qed.

(** The identifier taken from a URL is the leftmost piece of the URL made
    of "BV" and at least one letter or digit, taken with the longest run
    of letters and digits that follows "BV".  It is empty exactly when
    the URL has no such piece: when no "BV" in the URL is followed by a
    letter or a digit.  When the URL has one, the identifier is not empty
    and no "BV" followed by a letter or a digit starts before it. *)
Theorem video_id_shape (rawURL : string) :
  (FindBVID rawURL = EmptyString
   /\ forall before rest,
       rawURL = before +:+ "BV" +:+ rest ->
       match rest with
       | EmptyString => True
       | String c _ => isAlnum c = false
       end)
  \/ exists before run after,
      rawURL = before +:+ "BV" +:+ run +:+ after
      /\ FindBVID rawURL = ("BV" +:+ run)%string
      /\ run <> EmptyString
      /\ forallb isAlnum (list_ascii_of_string run) = true
      /\ match after with
         | EmptyString => True
         | String c _ => isAlnum c = false
         end
      /\ forall before' c rest',
          rawURL = before' +:+ "BV" +:+ String c rest' ->
          isAlnum c = true ->
          (String.length before <= String.length before')%nat.
Proof.
  induction rawURL as [|c1 tail IH].
  { left. split; [reflexivity|]. intros [|c before] rest; rewrite !append_cons;
      discriminate. }
  cbn [FindBVID]. destruct tail as [|c2 rest].
  { left. split; [reflexivity|]. intros before rest Hsplit.
    destruct (no_match_in_short _ _ _ Hsplit). }
  destruct (Ascii.eqb c1 "B" && Ascii.eqb c2 "V"
            && negb (String.eqb (takeAlnum rest) EmptyString)) eqn:Hmatch.
  - apply andb_true_iff in Hmatch as [Hmatch Hrun].
    apply andb_true_iff in Hmatch as [Hc1 Hc2].
    apply Ascii.eqb_eq in Hc1 as ->. apply Ascii.eqb_eq in Hc2 as ->.
    apply negb_true_iff, String.eqb_neq in Hrun.
    destruct (takeAlnum_split rest) as (after & Hsplit & Hall & Hafter).
    right. exists EmptyString, (takeAlnum rest), after.
    split; [simpl; rewrite !append_cons; simpl; rewrite <- Hsplit; reflexivity|].
    repeat split; try assumption. intros before' c rest' _ _. simpl. lia.
  - assert (Hhead : forall rest', String c1 (String c2 rest) = "BV" +:+ rest' ->
                                  takeAlnum rest' = EmptyString).
    { intros rest' Heq. rewrite !append_cons in Heq. injection Heq as -> -> ->.
      simpl in Hmatch. apply negb_false_iff, String.eqb_eq in Hmatch. exact Hmatch. }
    destruct IH as [[Hnone Hno] | (before & run & after & Hsplit & Hfound & Hrun
                                   & Hall & Hafter & Hleft)].
    + left. split; [exact Hnone|]. intros [|c before] rest' Heq.
      * apply takeAlnum_empty, Hhead, Heq.
      * rewrite append_cons in Heq. injection Heq as _ Heq. exact (Hno _ _ Heq).
    + right. exists (String c1 before), run, after.
      split; [rewrite append_cons, <- Hsplit; reflexivity|].
      repeat split; try assumption.
      intros [|c0 before'] c rest' Heq Hc.
      * apply Hhead in Heq. simpl in Heq. rewrite Hc in Heq. discriminate Heq.
      * rewrite append_cons in Heq. injection Heq as _ Heq. simpl.
        apply le_n_S. exact (Hleft _ _ _ Heq Hc).
Qed.

End Identifier.

(** ** The properties above at sample inputs *)

Lemma dash_variants_share_first_audio_witness :
  exists streams,
    getVideoStreamsByCID (Samples.playing Samples.twoCodecs Samples.legacy74)
                         "BV1qt4y1X7TW" 101 = Ok streams
    /\ Forall (fun s => StreamInfo.AudioURL s = "a1"%string) streams.
Proof.
  destruct (dash_variants_share_first_audio
              (Samples.playing Samples.twoCodecs Samples.legacy74)
              "BV1qt4y1X7TW" 101 "0" Samples.twoCodecs eq_refl)
    as (streams & Hok & Hall).
  - apply Exists_cons_hd. left.
  - exists streams. split; [exact Hok|].
    eapply Forall_impl; [exact Hall|]. intros s (_ & Haudio & _). exact Haudio.
Defined.

Lemma falls_back_to_legacy_witness :
  Forall (fun video => ~ recognised video) (PlayURL.Video Samples.noDash)
  /\ getVideoStreamsByCID (Samples.playing Samples.noDash Samples.legacy74)
                          "BV1qt4y1X7TW" 101
     = getLegacyVideoStreams (Samples.playing Samples.noDash Samples.legacy74)
                             "BV1qt4y1X7TW" 101.
Proof.
  assert (Hnone : Forall (fun video => ~ recognised video) (PlayURL.Video Samples.noDash))
    by constructor.
  split; [exact Hnone|].
  exact (proj1 (falls_back_to_legacy
                  (Samples.playing Samples.noDash Samples.legacy74)
                  "BV1qt4y1X7TW" 101 "0" Samples.noDash eq_refl Hnone)).
Defined.

Lemma parsed_item_invariant_witness :
  parseVideoURL (Samples.serving MoreSamples.onePart) Samples.videoURL
  = Ok (setType (infoOfResponse MoreSamples.onePart) "video" [])
  /\ FindBVID Samples.videoURL <> EmptyString.
Proof.
  assert (Hparse : parseVideoURL (Samples.serving MoreSamples.onePart) Samples.videoURL
                   = Ok (setType (infoOfResponse MoreSamples.onePart) "video" []))
    by reflexivity.
  split; [exact Hparse|].
  exact (proj1 (parsed_item_invariant _ _ _ Hparse)).
Defined.

Lemma parseInt_formatInt_witness :
  minInt <= -42 <= maxInt /\ Cmd.parseInt (GoStr.formatInt (-42)) = Some (-42).
Proof.
  assert (Hint : minInt <= -42 <= maxInt) by (unfold minInt, maxInt; lia).
  split; [exact Hint | exact (parseInt_formatInt (-42) Hint)].
Defined.

Lemma parsed_indices_bounds_witness :
  Cmd.parsePageRange "3, 1-2" 9 = Some (Ok [3; 1; 2])
  /\ [3; 1; 2] <> []
  /\ Forall (fun idx => 0 <= idx <= maxInt) [3; 1; 2].
Proof.
  assert (Hparse : Cmd.parsePageRange "3, 1-2" 9 = Some (Ok [3; 1; 2]))
    by (vm_compute; reflexivity).
  split; [exact Hparse | exact (parsed_indices_bounds _ _ _ Hparse)].
Defined.

Lemma reversed_range_refused_witness :
  0 <= 2 < 5 /\ 5 <= maxInt
  /\ Cmd.parsePageRange (GoStr.formatInt 5 +:+ "-" +:+ GoStr.formatInt 2) 9
     = Some (Err ("start page (" +:+ GoStr.formatInt 5
                  +:+ ") cannot be greater than end page (" +:+ GoStr.formatInt 2 +:+ ")")).
Proof.
  assert (Horder : 0 <= 2 < 5) by lia.
  assert (Hint : 5 <= maxInt) by (unfold maxInt; lia).
  split; [exact Horder|]. split; [exact Hint|].
  exact (reversed_range_refused 5 2 9 Horder Hint).
Defined.

Lemma range_selects_slice_witness :
  Cmd.episodesToDownload Samples.threeEpisodes
                         (GoStr.formatInt 2 +:+ "-" +:+ GoStr.formatInt 3)
  = Some (Ok [Samples.mkEpisode 102 "two" 2; Samples.mkEpisode 103 "three" 3]).
Proof.
  assert (Hrange : 1 <= 2 <= 3) by lia.
  assert (Hlast : 3 <= Z.of_nat (length (VideoInfo.Episodes Samples.threeEpisodes)))
    by (simpl; lia).
  assert (Hint : 3 < maxInt) by (unfold maxInt; lia).
  rewrite (range_selects_slice Samples.threeEpisodes 2 3 Hrange Hlast Hint).
  reflexivity.
Defined.

Lemma cookie_file_allow_list_witness :
  ("theme"%string ∉ Login.essentialCookies)
  /\ Auth.GetCookie
       (fst (Login.loadCookiesFromFile (Auth.NewAuthManager "cfg")
                                       (Login.Content MoreSamples.cookieFile) "cookies.txt"))
       "theme" = EmptyString.
Proof.
  assert (Hother : "theme"%string ∉ Login.essentialCookies).
  { unfold Login.essentialCookies. rewrite !not_elem_of_cons.
    repeat split; try discriminate. apply not_elem_of_nil. }
  split; [exact Hother|].
  rewrite (proj1 (cookie_file_allow_list (Auth.NewAuthManager "cfg")
                    (Login.Content MoreSamples.cookieFile) "cookies.txt" "theme" Hother)).
  reflexivity.
Defined.

Lemma cookie_file_error_or_import_witness :
  (exists am',
      Login.loadCookiesFromFile (Auth.NewAuthManager "cfg")
                                (Login.Content MoreSamples.cookieFile) "cookies.txt"
      = (am', None)
      /\ Auth.cookies am' !! "SESSDATA"%string = Some "abc"%string
      /\ Auth.cookies am' !! "theme"%string = None)
  /\ Login.loadCookiesFromFile (Auth.NewAuthManager "cfg")
                               (Login.Content "theme") "cookies.txt"
     = (Auth.NewAuthManager "cfg", Some "no valid cookies found in file"%string).
Proof.
  split.
  - assert (Hentries : omap Login.cookieOfLine
                            (GoStr.Split MoreSamples.cookieFile GoStr.newline)
                       = [("SESSDATA", "abc")]%string) by reflexivity.
    pose proof (cookie_file_error_or_import (Auth.NewAuthManager "cfg")
                  (Login.Content MoreSamples.cookieFile) "cookies.txt") as [_ Hload].
    rewrite Hentries in Hload.
    destruct Hload as (am' & Hload & _ & _ & Hcookies).
    exists am'. split; [exact Hload|]. rewrite !Hcookies. split; reflexivity.
  - exact (proj2 (cookie_file_error_or_import (Auth.NewAuthManager "cfg")
                    (Login.Content "theme") "cookies.txt")).
Defined.

Lemma redirect_cookies_witness :
  Auth.GetCookie
    (fst (Login.parseCookiesFromURL MoreSamples.redirectQuery
                                    (Auth.NewAuthManager "cfg") "https://example/cb"))
    "SESSDATA" = "abc"%string.
Proof.
  destruct (redirect_cookies MoreSamples.redirectQuery (Auth.NewAuthManager "cfg")
              "https://example/cb" _ eq_refl "SESSDATA") as [_ Hget].
  rewrite Hget. rewrite decide_True; [reflexivity|].
  split; [left | discriminate].
Defined.

Lemma poll_ends_on_first_decided_witness :
  Login.pollLoop MoreSamples.redirectQuery MoreSamples.scannedAtThird 5
                 (Auth.NewAuthManager "cfg") "key" 0
  = Login.pollLoop MoreSamples.redirectQuery MoreSamples.scannedAtThird 1
                   (Auth.NewAuthManager "cfg") "key" 2
  /\ Login.pollLoop MoreSamples.redirectQuery MoreSamples.scannedAtThird 2
                    (Auth.NewAuthManager "cfg") "key" 0 = None.
Proof.
  assert (Hwait : forall j : nat, (j < 2)%nat ->
                                  Login.waiting (MoreSamples.scannedAtThird "key" j)).
  { intros j Hj. eexists. split; [reflexivity|]. left. simpl.
    destruct (Nat.ltb_spec j 2); [reflexivity | lia]. }
  assert (Hdecided : ~ Login.waiting (MoreSamples.scannedAtThird "key" 2)).
  { intros (status & Hstatus & Hcode). injection Hstatus as <-.
    simpl in Hcode. destruct Hcode; discriminate. }
  destruct (poll_ends_on_first_decided MoreSamples.redirectQuery MoreSamples.scannedAtThird
              (Auth.NewAuthManager "cfg") "key" 2 5 Hwait Hdecided) as [Hrun _].
  destruct (poll_ends_on_first_decided MoreSamples.redirectQuery MoreSamples.scannedAtThird
              (Auth.NewAuthManager "cfg") "key" 2 2 Hwait Hdecided) as [_ Hout].
  split; [apply Hrun; lia | apply Hout; lia].
Defined.

Lemma login_keeps_cookies_on_error_witness :
  exists am',
    Login.pollLoop MoreSamples.redirectQuery MoreSamples.scannedAtThird 5
                   (Auth.NewAuthManager "cfg") "key" 0 = Some (am', None)
    /\ exists (j : nat) status,
        MoreSamples.scannedAtThird "key" j = Ok status
        /\ Login.QRCodeStatus.DataCode status = 0.
Proof.
  eexists. split; [reflexivity|].
  destruct (login_keeps_cookies_on_error MoreSamples.redirectQuery MoreSamples.scannedAtThird
              5 (Auth.NewAuthManager "cfg") _ "key" 0 None eq_refl)
    as (j & status & get & Hpoll & Hcode & _).
  exists j, status. split; assumption.
Defined.

Lemma season_playlist_witness :
  FindSeasonID MoreSamples.seasonURL = Some "33073"%string
  /\ exists videoInfo,
      parsePlaylistURL MoreSamples.seasons MoreSamples.seasonURL = Ok videoInfo
      /\ VideoInfo.Pages videoInfo = [].
Proof.
  assert (Hid : FindSeasonID MoreSamples.seasonURL = Some "33073"%string)
    by (vm_compute; reflexivity).
  split; [exact Hid|].
  destruct (season_playlist MoreSamples.seasons MoreSamples.seasonURL "33073" "success"
              MoreSamples.seasonData Hid eq_refl)
    as (videoInfo & Hparse & _ & _ & _ & Hpages).
  exists videoInfo. split; assumption.
Defined.

Lemma season_episodes_get_no_streams_witness :
  exists videoInfo,
    parsePlaylistURL MoreSamples.seasons MoreSamples.seasonURL = Ok videoInfo
    /\ Cmd.downloadPlaylist Samples.offline MoreSamples.downloader videoInfo "all"
       = Some (Ok [Cmd.NoStreams (Samples.mkEpisode 201 "ep one" 1) "no pages found for video";
                   Cmd.NoStreams (Samples.mkEpisode 202 "ep two" 2) "no pages found for video"]).
Proof.
  eexists. split; [reflexivity|].
  rewrite (season_episodes_get_no_streams Samples.offline MoreSamples.seasons
             MoreSamples.downloader MoreSamples.seasonURL "all" _ eq_refl).
  reflexivity.
Defined.

Lemma episode_uses_own_page_witness :
  exists videoInfo episode,
    parseVideoURL (Samples.serving Samples.twoParts) Samples.videoURL = Ok videoInfo
    /\ VideoInfo.Episodes videoInfo !! 1%nat = Some episode
    /\ EpisodeInfo.CID episode = 102.
Proof.
  assert (Hbvid : FindBVID Samples.videoURL <> EmptyString)
    by (vm_compute; discriminate).
  assert (Hmany : (1 < length (VideoAPIResponse.Pages Samples.twoParts))%nat)
    by (simpl; lia).
  destruct (episode_uses_own_page (Samples.serving Samples.twoParts) MoreSamples.downloader
              Samples.videoURL "0" Samples.twoParts 1 (Samples.mkPage 102 EmptyString 2)
              Hbvid eq_refl Hmany eq_refl eq_refl)
    as (videoInfo & episode & Hparse & Hepisode & Hcid & _).
  exists videoInfo, episode. repeat split; assumption.
Defined.

Lemma download_requires_login_witness :
  (Auth.GetCookie (Auth.NewAuthManager "cfg") "SESSDATA" = EmptyString
   \/ Auth.GetCookie (Auth.NewAuthManager "cfg") "bili_jct" = EmptyString)
  /\ Cmd.runDownload Samples.offline MoreSamples.seasons MoreSamples.pathOf
                     MoreSamples.downloader None (Auth.NewAuthManager "cfg")
                     Samples.videoURL "all"
     = Some (Err "authentication required").
Proof.
  assert (Hmissing : Auth.GetCookie (Auth.NewAuthManager "cfg") "SESSDATA" = EmptyString
                     \/ Auth.GetCookie (Auth.NewAuthManager "cfg") "bili_jct" = EmptyString)
    by (left; reflexivity).
  split; [exact Hmissing|].
  exact (download_requires_login Samples.offline MoreSamples.seasons MoreSamples.pathOf
           MoreSamples.downloader (Auth.NewAuthManager "cfg") Samples.videoURL "all"
           Hmissing).
Defined.

Lemma single_page_ignores_expression_witness :
  Cmd.runDownload (Samples.serving MoreSamples.onePart) MoreSamples.seasons
                  MoreSamples.pathOf MoreSamples.downloader None MoreSamples.loggedIn
                  Samples.videoURL "not a page list"
  = Some (Err "failed to get video streams: dial tcp: no route to host").
Proof.
  assert (Hbvid : FindBVID Samples.videoURL <> EmptyString)
    by (vm_compute; discriminate).
  rewrite (single_page_ignores_expression
             (Samples.serving MoreSamples.onePart) MoreSamples.seasons MoreSamples.pathOf
             MoreSamples.downloader MoreSamples.loggedIn Samples.videoURL
             "/video/BV1qt4y1X7TW" "0" "not a page list" MoreSamples.onePart
             (Samples.mkPage 101 EmptyString 1)
             eq_refl eq_refl eq_refl Hbvid eq_refl eq_refl).
  reflexivity.
Defined.
